(** * wllama multimodal actions: [action_init_mtmd] and [action_process_image]

    A shallow embedding of [src/cpp/wllama-mtmd.hpp].  The two action
    handlers are translated statement by statement into a small monad that
    threads the program state (the [app_t] passed by reference, the static
    [g_mtmd_ctx] and the state of the inference engine), propagates C++
    exceptions, and records every call made to the engine together with its
    outcome.  The engine (llama.cpp, mtmd and the wcommon helpers) is not part
    of the file: it is an arbitrary [Engine] record. *)

From Stdlib Require Import ZArith NArith List String Ascii Bool Lia QArith_base.
From Stdlib Require Import DecimalString.
From Stdlib Require Init.Byte.
Import ListNotations.

Local Open Scope string_scope.
Local Open Scope Z_scope.
Local Open Scope list_scope.

(** ** Machine data *)

(** Pointers are addresses; address 0 is [nullptr]. *)
Definition ptr := N.
Definition nullptr : ptr := 0%N.
Definition is_null (p : ptr) : bool := N.eqb p nullptr.

(** [int], [int32_t], [llama_pos] and [llama_token] are 32-bit signed
    integers, kept as [Z]; arithmetic on them wraps around. *)
Definition INT_MAX : Z := 2147483647.
Definition INT_MIN : Z := -2147483648.
Definition wrap32 (z : Z) : Z := (z + 2 ^ 31) mod 2 ^ 32 - 2 ^ 31.
Definition int_range (z : Z) : Prop := INT_MIN <= z <= INT_MAX.
Definition int_mul (a b : Z) : Z := wrap32 (a * b).
Definition int_add (a b : Z) : Z := wrap32 (a + b).

(** [std::to_string] on a [size_t]. *)
Definition to_string (n : N) : string := NilEmpty.string_of_uint (N.to_uint n).

(** [s.find(t) == std::string::npos] *)
Definition find_npos (s t : string) : bool :=
  match String.index 0 t s with
  | None => true
  | Some _ => false
  end.

(** ** Messages (the [glue_msg_*] structs) *)

Record glue_msg_init_mtmd_req := {
  mmproj_path : string;
  req_use_gpu : bool;
  req_n_threads : Z;
  req_image_marker : string
}.

Record glue_msg_init_mtmd_res := {
  init_success : bool;
  init_error : string
}.

Record glue_msg_process_image_req := {
  image_data : list Byte.byte;
  data_size : Z;
  width : Z;
  height : Z;
  prompt : string;
  use_cache : bool
}.

Record glue_msg_process_image_res := {
  success : bool;
  error : string;
  result : string
}.

(** ** Engine data structures (declared in llama.h, mtmd.h and the helpers) *)

Inductive ggml_log_level := GGML_LOG_LEVEL_INFO.

Record mtmd_context_params := {
  use_gpu : bool;
  n_threads : Z;
  verbosity : ggml_log_level;
  print_timings : bool;
  image_marker : string
}.

Record mtmd_bitmap := {
  nx : Z;
  ny : Z;
  data : list Byte.byte;
  id : string
}.

Record mtmd_input_text := {
  text : string;
  add_special : bool;
  parse_special : bool
}.

(** An encoded chunk is a run of text tokens or one image-embedding block
    (of which only the number of positions it occupies is recorded). *)
Inductive mtmd_input_chunk :=
| chunk_text (tokens_text : list Z)
| chunk_image (tokens_image : N).

Definition mtmd_input_chunks := list mtmd_input_chunk.

Record wcommon_sampler_params := {
  temp : Q;
  top_k : Z;
  top_p : Q;
  n_prev : Z
}.

(** One slot of a [llama_batch]: token, position, sequence ids, logits flag. *)
Record batch_entry := {
  b_token : Z;
  b_pos : Z;
  b_seq_ids : list Z;
  b_logits : bool
}.

Definition llama_batch := list batch_entry.

(** ** Program state *)

(** The fields of [app_t] that the two handlers touch. *)
Record app_t := {
  app_model : ptr;
  app_ctx : ptr;
  app_ctx_sampling : ptr;
  app_batch : llama_batch
}.

(** [struct mtmd_context_wrapper]; its constructor gives
    [mtmd_context_wrapper_init]. *)
Record mtmd_context_wrapper := {
  ctx : ptr;
  initialized : bool
}.

Definition mtmd_context_wrapper_init : mtmd_context_wrapper :=
  {| ctx := nullptr; initialized := false |}.

(** ** Exceptions and outcomes of calls *)

Inductive exn :=
| std_exception (what : string)   (* caught by [catch (const std::exception&)] *)
| unknown_exception.              (* caught only by [catch (...)] *)

Inductive outcome (A : Type) :=
| Normal (a : A)
| Thrown (e : exn).
Arguments Normal {A} a.
Arguments Thrown {A} e.

(** ** The calls made to the engine, with their outcomes *)

Inductive event :=
| Ev_mtmd_free (c : ptr)
| Ev_mtmd_init_from_file (path : string) (model : ptr)
    (params : mtmd_context_params) (r : outcome ptr)
| Ev_mtmd_tokenize (c : ptr) (t : mtmd_input_text) (bitmaps : list mtmd_bitmap)
    (r : outcome (Z * mtmd_input_chunks))
| Ev_llama_kv_cache_clear (lctx : ptr) (r : outcome unit)
| Ev_llama_n_batch (lctx : ptr) (r : outcome Z)
| Ev_mtmd_helper_eval (c lctx : ptr) (chunks : mtmd_input_chunks)
    (n_past seq_id n_batch : Z) (r : outcome Z)
| Ev_mtmd_helper_get_n_tokens (chunks : mtmd_input_chunks) (r : outcome N)
| Ev_wcommon_sampler_free (smpl : ptr) (r : outcome unit)
| Ev_wcommon_sampler_init (model : ptr) (sparams : wcommon_sampler_params)
    (r : outcome ptr)
| Ev_wcommon_sampler_sample (smpl lctx : ptr) (idx : Z) (r : outcome Z)
| Ev_llama_token_eos (model : ptr) (r : outcome Z)
| Ev_llama_token_to_piece (lctx : ptr) (tok : Z) (r : outcome string)
| Ev_wcommon_sampler_accept (smpl : ptr) (tok : Z) (r : outcome unit)
| Ev_llama_decode (lctx : ptr) (b : llama_batch) (r : outcome Z).

Definition trace := list event.

(** ** The engine

    Everything the handlers call but do not define.  The engine has a state
    of its own ([World]: model weights, attention cache, sampler histories,
    allocator), every call may change it, and every call inside a [try]
    block may throw.  [mtmd_free] is a destructor and does not throw. *)
Record Engine := {
  World : Type;
  (* the C++ runtime *)
  std_hash : list Byte.byte -> N;          (* std::hash<std::string> *)
  length_error_what : string;              (* what() of std::length_error *)
  bad_alloc_what : string;                 (* what() of std::bad_alloc *)
  E_operator_new : Z -> World -> bool;     (* can that many bytes be allocated? *)
  (* mtmd.h *)
  default_image_marker : string;           (* initializer of params.image_marker *)
  E_mtmd_free : ptr -> World -> World;
  E_mtmd_init_from_file :
    string -> ptr -> mtmd_context_params -> World -> outcome ptr * World;
  E_mtmd_tokenize :
    ptr -> mtmd_input_text -> list mtmd_bitmap -> World ->
    outcome (Z * mtmd_input_chunks) * World;
  E_mtmd_helper_eval :
    ptr -> ptr -> mtmd_input_chunks -> Z -> Z -> Z -> World -> outcome Z * World;
  E_mtmd_helper_get_n_tokens : mtmd_input_chunks -> World -> outcome N * World;
  (* llama.h *)
  E_llama_kv_cache_clear : ptr -> World -> outcome unit * World;
  E_llama_n_batch : ptr -> World -> outcome Z * World;
  E_llama_token_eos : ptr -> World -> outcome Z * World;
  E_llama_token_to_piece : ptr -> Z -> World -> outcome string * World;
  E_llama_decode : ptr -> llama_batch -> World -> outcome Z * World;
  (* helpers/wsampling.h *)
  E_wcommon_sampler_free : ptr -> World -> outcome unit * World;
  E_wcommon_sampler_init :
    ptr -> wcommon_sampler_params -> World -> outcome ptr * World;
  E_wcommon_sampler_sample : ptr -> ptr -> Z -> World -> outcome Z * World;
  E_wcommon_sampler_accept : ptr -> Z -> World -> outcome unit * World
}.

(** ** Responses that report an error

    [res] after [res.success = false] and [res.error = msg], as it is
    returned: [res.result] is never assigned on these paths. *)
Definition res_error (msg : string) : glue_msg_process_image_res :=
  {| success := false; error := msg; result := EmptyString |}.

Definition init_res_error (msg : string) : glue_msg_init_mtmd_res :=
  {| init_success := false; init_error := msg |}.

(** ** The handler monad: state, exceptions and the record of engine calls *)

Section Handlers.

Variable E : Engine.

Record state := {
  app : app_t;                          (* the [app_t&] argument *)
  g_mtmd_ctx : mtmd_context_wrapper;    (* the static global *)
  world : World E                       (* the engine's own state *)
}.

Definition M (A : Type) : Type := state -> outcome A * state * trace.

Definition ret {A} (a : A) : M A := fun s => (Normal a, s, []).

Definition throw {A} (e : exn) : M A := fun s => (Thrown e, s, []).

Definition bind {A B} (m : M A) (k : A -> M B) : M B :=
  fun s =>
    match m s with
    | (Normal a, s1, t1) =>
        match k a s1 with
        | (o, s2, t2) => (o, s2, t1 ++ t2)
        end
    | (Thrown e, s1, t1) => (Thrown e, s1, t1)
    end.

(** [try { m } catch (e) { h e }]; the state reached when the exception was
    thrown is the one the handler starts from. *)
Definition try_catch {A} (m : M A) (h : exn -> M A) : M A :=
  fun s =>
    match m s with
    | (Normal a, s1, t1) => (Normal a, s1, t1)
    | (Thrown e, s1, t1) =>
        match h e s1 with
        | (o, s2, t2) => (o, s2, t1 ++ t2)
        end
    end.

Notation "x <- m ;; k" := (bind m (fun x => k))
  (at level 61, m at next level, right associativity).
Notation "m ;;; k" := (bind m (fun _ => k))
  (at level 61, right associativity).

Definition get_app : M app_t := fun s => (Normal (app s), s, []).
Definition get_g : M mtmd_context_wrapper := fun s => (Normal (g_mtmd_ctx s), s, []).

Definition put_app (a : app_t) : M unit :=
  fun s => (Normal tt, {| app := a; g_mtmd_ctx := g_mtmd_ctx s; world := world s |}, []).

Definition put_g (g : mtmd_context_wrapper) : M unit :=
  fun s => (Normal tt, {| app := app s; g_mtmd_ctx := g; world := world s |}, []).

Definition get_world : M (World E) := fun s => (Normal (world s), s, []).

Definition put_world (w : World E) (s : state) : state :=
  {| app := app s; g_mtmd_ctx := g_mtmd_ctx s; world := w |}.

(** A call into the engine: it runs on the engine's state and is recorded
    with its outcome. *)
Definition engine_call {A} (f : World E -> outcome A * World E)
    (ev : outcome A -> event) : M A :=
  fun s =>
    match f (world s) with
    | (o, w) => (o, put_world w s, [ev o])
    end.

Definition mtmd_free (c : ptr) : M unit :=
  fun s => (Normal tt, put_world (E_mtmd_free E c (world s)) s, [Ev_mtmd_free c]).

Definition mtmd_init_from_file path model params : M ptr :=
  engine_call (E_mtmd_init_from_file E path model params)
              (Ev_mtmd_init_from_file path model params).

Definition mtmd_tokenize c t bitmaps : M (Z * mtmd_input_chunks) :=
  engine_call (E_mtmd_tokenize E c t bitmaps) (Ev_mtmd_tokenize c t bitmaps).

Definition llama_kv_cache_clear lctx : M unit :=
  engine_call (E_llama_kv_cache_clear E lctx) (Ev_llama_kv_cache_clear lctx).

Definition llama_n_batch lctx : M Z :=
  engine_call (E_llama_n_batch E lctx) (Ev_llama_n_batch lctx).

Definition mtmd_helper_eval c lctx chunks n_past seq_id n_batch : M Z :=
  engine_call (E_mtmd_helper_eval E c lctx chunks n_past seq_id n_batch)
              (Ev_mtmd_helper_eval c lctx chunks n_past seq_id n_batch).

Definition mtmd_helper_get_n_tokens chunks : M N :=
  engine_call (E_mtmd_helper_get_n_tokens E chunks)
              (Ev_mtmd_helper_get_n_tokens chunks).

Definition wcommon_sampler_free smpl : M unit :=
  engine_call (E_wcommon_sampler_free E smpl) (Ev_wcommon_sampler_free smpl).

Definition wcommon_sampler_init model sparams : M ptr :=
  engine_call (E_wcommon_sampler_init E model sparams)
              (Ev_wcommon_sampler_init model sparams).

Definition wcommon_sampler_sample smpl lctx idx : M Z :=
  engine_call (E_wcommon_sampler_sample E smpl lctx idx)
              (Ev_wcommon_sampler_sample smpl lctx idx).

Definition llama_token_eos model : M Z :=
  engine_call (E_llama_token_eos E model) (Ev_llama_token_eos model).

Definition llama_token_to_piece lctx tok : M string :=
  engine_call (E_llama_token_to_piece E lctx tok) (Ev_llama_token_to_piece lctx tok).

Definition wcommon_sampler_accept smpl tok : M unit :=
  engine_call (E_wcommon_sampler_accept E smpl tok)
              (Ev_wcommon_sampler_accept smpl tok).

Definition llama_decode lctx b : M Z :=
  engine_call (E_llama_decode E lctx b) (Ev_llama_decode lctx b).

(** Modelled from the spec: [llama_batch_clear] and [llama_batch_add] are
    declared in helpers/wcommon.h, which is not among the sources.  The single
    token is submitted as the next input at the current position: the first
    helper empties the batch held in [app], the second appends one slot. *)
Definition llama_batch_clear : M unit :=
  a <- get_app ;;
  put_app {| app_model := app_model a; app_ctx := app_ctx a;
             app_ctx_sampling := app_ctx_sampling a; app_batch := [] |}.

Definition llama_batch_add (tok pos : Z) (seq_ids : list Z) (logits : bool) : M unit :=
  a <- get_app ;;
  put_app {| app_model := app_model a; app_ctx := app_ctx a;
             app_ctx_sampling := app_ctx_sampling a;
             app_batch := app_batch a ++
               [{| b_token := tok; b_pos := pos; b_seq_ids := seq_ids;
                   b_logits := logits |}] |}.

Definition set_ctx_sampling (p : ptr) : M unit :=
  a <- get_app ;;
  put_app {| app_model := app_model a; app_ctx := app_ctx a;
             app_ctx_sampling := p; app_batch := app_batch a |}.

(** ** [action_init_mtmd] (lines 75-120) *)

Definition action_init_mtmd (req : glue_msg_init_mtmd_req) : M glue_msg_init_mtmd_res :=
  a <- get_app ;;
  if is_null (app_model a) then
    ret (init_res_error "Text model not loaded. Call loadModel() first.")
  else
    (* Cleanup existing context if any *)
    g <- get_g ;;
    (if negb (is_null (ctx g)) then
       mtmd_free (ctx g) ;;;
       put_g {| ctx := nullptr; initialized := false |}
     else ret tt) ;;;
    try_catch
      (let params :=
         {| use_gpu := req_use_gpu req;
            n_threads := if req_n_threads req >? 0 then req_n_threads req else 1;
            verbosity := GGML_LOG_LEVEL_INFO;
            print_timings := true;
            image_marker :=
              if (String.length (req_image_marker req) =? 0)%nat
              then default_image_marker E
              else req_image_marker req |} in
       p <- mtmd_init_from_file (mmproj_path req) (app_model a) params ;;
       g <- get_g ;;
       put_g {| ctx := p; initialized := initialized g |} ;;;
       if is_null p then
         ret (init_res_error "Failed to initialize multimodal context")
       else
         g <- get_g ;;
         put_g {| ctx := ctx g; initialized := true |} ;;;
         ret {| init_success := true; init_error := EmptyString |})
      (fun e =>
         match e with
         | std_exception what =>
             ret (init_res_error ("Exception: " ++ what)%string)
         | unknown_exception => throw e   (* no handler: it leaves the function *)
         end).

(** ** [action_process_image] (lines 123-269) *)

Definition image_marker_literal : string := "<__image__>".

Definition sparams_literal : wcommon_sampler_params :=
  {| temp := 7 # 10; top_k := 40; top_p := 9 # 10; n_prev := 64 |}.

Definition max_tokens : nat := 1024.

(** How the generation loop is left: by [break] or by running out of
    iterations, with the text accumulated, or by the [return] inside it. *)
Inductive loop_exit :=
| loop_done (generated_text : string)
| loop_return (res : glue_msg_process_image_res).

(** The [for] loop of lines 231-256; [remaining] is [max_tokens - i]. *)
Fixpoint generate (remaining : nat) (generated_text : string) (n_past : Z)
  : M loop_exit :=
  match remaining with
  | O => ret (loop_done generated_text)
  | S remaining' =>
      a <- get_app ;;
      tok <- wcommon_sampler_sample (app_ctx_sampling a) (app_ctx a) n_past ;;
      eos <- llama_token_eos (app_model a) ;;
      if (tok =? eos)%Z then
        ret (loop_done generated_text)
      else
        token_str <- llama_token_to_piece (app_ctx a) tok ;;
        let generated_text := (generated_text ++ token_str)%string in
        wcommon_sampler_accept (app_ctx_sampling a) tok ;;;
        llama_batch_clear ;;;
        llama_batch_add tok n_past [0] true ;;;
        a <- get_app ;;
        r <- llama_decode (app_ctx a) (app_batch a) ;;
        if negb (r =? 0)%Z then
          ret (loop_return (res_error "Failed to decode token"))
        else
          generate remaining' generated_text (int_add n_past 1)
  end.

(** [bitmap.data.resize(n)] on the empty vector of a new bitmap (line 149),
    with [n] an [int] converted to [size_t].  A negative [n] becomes a size
    above [max_size()] and the call throws [std::length_error].  A positive
    [n] allocates (and zero-fills) [n] bytes before anything is compared or
    copied, and the call throws [std::bad_alloc] when that many bytes cannot
    be had.  [resize(0)] allocates nothing.  This is the one allocation whose
    size the request chooses freely; the strings of the handler are taken to
    fit. *)
Definition vector_resize (n : Z) : M unit :=
  w <- get_world ;;
  if n <? 0 then throw (std_exception (length_error_what E))
  else if (0 <? n) && negb (E_operator_new E n w)
  then throw (std_exception (bad_alloc_what E))
  else ret tt.

(** The body of the [try] block (lines 145-260).

    [req.width * req.height * 3] is computed in [int].  The comparison of
    line 152 converts it to [size_t], as [resize] does; it is only reached
    with a non-negative value, where the conversion changes nothing. *)
Definition process_image_try (req : glue_msg_process_image_req)
  : M glue_msg_process_image_res :=
  a <- get_app ;;
  g <- get_g ;;
  let n_bytes := int_mul (int_mul (width req) (height req)) 3 in
  vector_resize n_bytes ;;;
  if (Z.of_nat (List.length (image_data req)) >=? n_bytes) then
    let bitmap :=
      {| nx := width req;
         ny := height req;
         data := firstn (Z.to_nat n_bytes) (image_data req);
         id := ("img_" ++ to_string (std_hash E (image_data req)))%string |} in
    (* Format the text with image marker *)
    let formatted_prompt :=
      if find_npos (prompt req) image_marker_literal
      then (prompt req ++ (" " ++ image_marker_literal))%string
      else prompt req in
    let input_text :=
      {| text := formatted_prompt; add_special := true; parse_special := true |} in
    tk <- mtmd_tokenize (ctx g) input_text [bitmap] ;;
    let (tokenize_result, chunks) := tk : Z * mtmd_input_chunks in
    if negb (tokenize_result =? 0)%Z then
      ret (res_error "Failed to tokenize input with image")
    else
      (* Clear KV cache if not using cache *)
      (if negb (use_cache req) then llama_kv_cache_clear (app_ctx a) else ret tt) ;;;
      (* Process the chunks *)
      let n_past := 0 in
      n_batch <- llama_n_batch (app_ctx a) ;;
      eval_result <- mtmd_helper_eval (ctx g) (app_ctx a) chunks n_past 0 n_batch ;;
      if negb (eval_result =? 0)%Z then
        ret (res_error "Failed to evaluate chunks")
      else
        n_tokens <- mtmd_helper_get_n_tokens chunks ;;
        let n_past := wrap32 (n_past + Z.of_N n_tokens) in
        (* Initialize sampling context *)
        (if negb (is_null (app_ctx_sampling a))
         then wcommon_sampler_free (app_ctx_sampling a) else ret tt) ;;;
        smpl <- wcommon_sampler_init (app_model a) sparams_literal ;;
        set_ctx_sampling smpl ;;;
        ex <- generate max_tokens EmptyString n_past ;;
        match ex with
        | loop_return res => ret res
        | loop_done generated_text =>
            ret {| success := true; error := EmptyString; result := generated_text |}
        end
  else
    ret (res_error "Image data size does not match dimensions").

Definition action_process_image (req : glue_msg_process_image_req)
  : M glue_msg_process_image_res :=
  a <- get_app ;;
  if is_null (app_model a) || is_null (app_ctx a) then
    ret (res_error "Text model not loaded. Call loadModel() first.")
  else
    g <- get_g ;;
    if negb (initialized g) || is_null (ctx g) then
      ret (res_error
             "Multimodal context not initialized. Call initMultimodal() first.")
    else if (List.length (image_data req) =? 0)%nat
            || (width req <=? 0) || (height req <=? 0) then
      ret (res_error "Invalid image data or dimensions")
    else
      try_catch (process_image_try req)
        (fun e =>
           match e with
           | std_exception what =>
               ret (res_error ("Exception: " ++ what)%string)
           | unknown_exception =>
               ret (res_error "Unknown error occurred during image processing")
           end).

End Handlers.

Arguments app {E} s.
Arguments g_mtmd_ctx {E} s.
Arguments world {E} s.

(** ** A scripted engine, for running the handlers on concrete inputs *)

Module Scripted.

Record script := {
  init_results : list (outcome ptr);     (* k-th call of mtmd_init_from_file *)
  tokenize_result : outcome (Z * mtmd_input_chunks);
  eval_result : outcome Z;
  sampled : list Z;                      (* k-th sampled token ... *)
  sampled_after : Z;                     (* ... and every later one *)
  eos_token : Z;
  decode_results : list Z                (* k-th llama_decode; 0 afterwards *)
}.

(** The engine state counts the calls answered so far. *)
Record counters := {
  n_init : nat;
  n_sample : nat;
  n_decode : nat
}.

Definition start : counters := {| n_init := 0; n_sample := 0; n_decode := 0 |}.

Definition chunk_n_tokens (c : mtmd_input_chunk) : N :=
  match c with
  | chunk_text toks => N.of_nat (List.length toks)
  | chunk_image n => n
  end.

Definition piece (tok : Z) : string := ("<" ++ to_string (Z.to_N tok) ++ ">")%string.

Definition engine (sc : script) : Engine :=
  {| World := counters;
     std_hash := fun bytes => N.of_nat (List.length bytes);
     length_error_what := "vector";
     bad_alloc_what := "std::bad_alloc";
     E_operator_new := fun _ _ => true;
     default_image_marker := "<__image__>";
     E_mtmd_free := fun _ w => w;
     E_mtmd_init_from_file := fun _ _ _ w =>
       (nth (n_init w) (init_results sc) (Normal nullptr),
        {| n_init := S (n_init w); n_sample := n_sample w; n_decode := n_decode w |});
     E_mtmd_tokenize := fun _ _ _ w => (tokenize_result sc, w);
     E_mtmd_helper_eval := fun _ _ _ _ _ _ w => (eval_result sc, w);
     E_mtmd_helper_get_n_tokens := fun chunks w =>
       (Normal (fold_right N.add 0%N (map chunk_n_tokens chunks)), w);
     E_llama_kv_cache_clear := fun _ w => (Normal tt, w);
     E_llama_n_batch := fun _ w => (Normal 512, w);
     E_llama_token_eos := fun _ w => (Normal (eos_token sc), w);
     E_llama_token_to_piece := fun _ tok w => (Normal (piece tok), w);
     E_llama_decode := fun _ _ w =>
       (Normal (nth (n_decode w) (decode_results sc) 0),
        {| n_init := n_init w; n_sample := n_sample w; n_decode := S (n_decode w) |});
     E_wcommon_sampler_free := fun _ w => (Normal tt, w);
     E_wcommon_sampler_init := fun _ _ w => (Normal 700%N, w);
     E_wcommon_sampler_sample := fun _ _ _ w =>
       (Normal (nth (n_sample w) (sampled sc) (sampled_after sc)),
        {| n_init := n_init w; n_sample := S (n_sample w); n_decode := n_decode w |});
     E_wcommon_sampler_accept := fun _ _ w => (Normal tt, w) |}.

(** A host with the text model at address 100 and its context at 200. *)
Definition loaded_app : app_t :=
  {| app_model := 100%N; app_ctx := 200%N; app_ctx_sampling := nullptr;
     app_batch := [] |}.

Definition fresh (sc : script) : state (engine sc) :=
  Build_state (engine sc) loaded_app mtmd_context_wrapper_init start.

Definition ready (sc : script) : state (engine sc) :=
  Build_state (engine sc) loaded_app {| ctx := 300%N; initialized := true |} start.

End Scripted.

(** ** Error kinds

    The error kinds of the error-handling design, and the message each one
    is reported with by the handlers. *)
Inductive error_kind :=
| ModelNotLoaded
| ContextNotInitialized
| InvalidImageData
| ImageSizeMismatch
| MultimodalInitFailed
| TokenizationFailed
| EvaluationFailed
| DecodeFailed.

Definition error_message (k : error_kind) : string :=
  match k with
  | ModelNotLoaded => "Text model not loaded. Call loadModel() first."
  | ContextNotInitialized =>
      "Multimodal context not initialized. Call initMultimodal() first."
  | InvalidImageData => "Invalid image data or dimensions"
  | ImageSizeMismatch => "Image data size does not match dimensions"
  | MultimodalInitFailed => "Failed to initialize multimodal context"
  | TokenizationFailed => "Failed to tokenize input with image"
  | EvaluationFailed => "Failed to evaluate chunks"
  | DecodeFailed => "Failed to decode token"
  end.

Definition failure (k : error_kind) : glue_msg_process_image_res :=
  res_error (error_message k).

Definition init_failure (k : error_kind) : glue_msg_init_mtmd_res :=
  init_res_error (error_message k).

(** ** Observations on runs *)

(** The three components of a run. *)
Definition outcome_of {A S : Type} (r : A * S * trace) : A := fst (fst r).
Definition state_of {A S : Type} (r : A * S * trace) : S := snd (fst r).
Definition trace_of {A S : Type} (r : A * S * trace) : trace := snd r.

(** The test of line 134: the multimodal context is ready for use. *)
Definition is_ready (g : mtmd_context_wrapper) : bool :=
  initialized g && negb (is_null (ctx g)).

(** The events of the generation loop. *)
Definition loop_event (ev : event) : bool :=
  match ev with
  | Ev_wcommon_sampler_sample _ _ _ _
  | Ev_llama_token_eos _ _
  | Ev_llama_token_to_piece _ _ _
  | Ev_wcommon_sampler_accept _ _ _
  | Ev_llama_decode _ _ _ => true
  | _ => false
  end.

Definition is_sample (ev : event) : bool :=
  match ev with
  | Ev_wcommon_sampler_sample _ _ _ _ => true
  | _ => false
  end.

(** A decode step that reported status 0. *)
Definition decode_ok (ev : event) : bool :=
  match ev with
  | Ev_llama_decode _ _ (Normal r) => (r =? 0)%Z
  | _ => false
  end.

Definition piece_of (ev : event) : string :=
  match ev with
  | Ev_llama_token_to_piece _ _ (Normal str) => str
  | _ => EmptyString
  end.

(** Number of sampling steps, number of completed iterations, and the
    text fragments obtained from the engine, in order. *)
Definition count_samples (t : trace) : nat := List.length (filter is_sample t).
Definition count_decoded (t : trace) : nat := List.length (filter decode_ok t).
Definition pieces (t : trace) : string :=
  fold_right (fun ev acc => (piece_of ev ++ acc)%string) EmptyString t.

(** The first sampling step of the run returned the token that
    [llama_token_eos] then reported. *)
Definition first_sampled_is_eos (t : trace) : Prop :=
  exists pre smpl lctx idx model tok post,
    t = pre ++ Ev_wcommon_sampler_sample smpl lctx idx (Normal tok)
            :: Ev_llama_token_eos model (Normal tok) :: post
    /\ count_samples pre = 0%nat.

(** Every request for a token's text directly follows the sampling of that
    token and a comparison with an end-of-sequence token that differs. *)
Definition pieces_guarded (t : trace) : Prop :=
  forall pre lctx tok r post,
    t = pre ++ Ev_llama_token_to_piece lctx tok r :: post ->
    exists pre' smpl lctx' idx model eos,
      pre = pre' ++ [Ev_wcommon_sampler_sample smpl lctx' idx (Normal tok);
                     Ev_llama_token_eos model (Normal eos)]
      /\ tok <> eos.

(** The response built from the way the generation loop ended (lines
    252, 259-260 and the two [catch] clauses). *)
Definition finish (ol : outcome loop_exit) : glue_msg_process_image_res :=
  match ol with
  | Normal (loop_done generated_text) =>
      {| success := true; error := EmptyString; result := generated_text |}
  | Normal (loop_return res) => res
  | Thrown (std_exception what) => res_error ("Exception: " ++ what)%string
  | Thrown unknown_exception =>
      res_error "Unknown error occurred during image processing"
  end.

(** [t] occurs in [s] as a substring. *)
Definition occurs (t s : string) : Prop :=
  exists m, String.substring m (String.length t) s = t.

(** The multimodal contexts alive after the calls of [t], given the ones
    alive before: [mtmd_init_from_file] creates the context it returns,
    [mtmd_free] destroys its argument. *)
Fixpoint remove_one (p : ptr) (live : list ptr) : list ptr :=
  match live with
  | [] => []
  | q :: live' => if N.eqb p q then live' else q :: remove_one p live'
  end.

Fixpoint live_contexts (t : trace) (live : list ptr) : list ptr :=
  match t with
  | [] => live
  | Ev_mtmd_init_from_file _ _ _ (Normal p) :: t' =>
      live_contexts t' (if is_null p then live else p :: live)
  | Ev_mtmd_free c :: t' => live_contexts t' (remove_one c live)
  | _ :: t' => live_contexts t' live
  end.

(** The context the singleton holds, as a list. *)
Definition held (g : mtmd_context_wrapper) : list ptr :=
  if is_null (ctx g) then [] else [ctx g].

(** The decode position cursor as the design describes it: the number of
    cache slots occupied for the sequence, zero when the cache is cleared,
    advanced by the tokens of the evaluated chunks and by one for every
    token decoded. *)
Fixpoint cursor_after (t : trace) (cursor : Z) : Z :=
  match t with
  | [] => cursor
  | Ev_llama_kv_cache_clear _ (Normal _) :: t' => cursor_after t' 0
  | Ev_mtmd_helper_get_n_tokens _ (Normal n) :: t' =>
      cursor_after t' (cursor + Z.of_N n)
  | Ev_llama_decode _ b (Normal r) :: t' =>
      cursor_after t' (if (r =? 0)%Z then cursor + Z.of_nat (List.length b) else cursor)
  | _ :: t' => cursor_after t' cursor
  end.

(** ** Sequences of requests

    [WLLAMA_MTMD_ACTIONS] registers the two handlers; requests are served
    one after the other on the same state. *)
Inductive request :=
| InitMultimodal (req : glue_msg_init_mtmd_req)
| ProcessImage (req : glue_msg_process_image_req).

Inductive response :=
| InitResponse (o : outcome glue_msg_init_mtmd_res)
| ProcessResponse (o : outcome glue_msg_process_image_res).

Definition handle (E : Engine) (rq : request) (s : state E)
  : response * state E * trace :=
  match rq with
  | InitMultimodal req =>
      match action_init_mtmd E req s with
      | (o, s', t) => (InitResponse o, s', t)
      end
  | ProcessImage req =>
      match action_process_image E req s with
      | (o, s', t) => (ProcessResponse o, s', t)
      end
  end.

Fixpoint serve (E : Engine) (rqs : list request) (s : state E)
  : list response * state E * trace :=
  match rqs with
  | [] => ([], s, [])
  | rq :: rqs' =>
      match handle E rq s with
      | (r, s1, t1) =>
          match serve E rqs' s1 with
          | (rs, s2, t2) => (r :: rs, s2, t1 ++ t2)
          end
      end
  end.

Definition init_succeeded (r : response) : bool :=
  match r with
  | InitResponse (Normal res) => init_success res
  | _ => false
  end.

Definition is_piece (ev : event) : bool :=
  match ev with
  | Ev_llama_token_to_piece _ _ _ => true
  | _ => false
  end.

(** What the clean-up of lines 87-91 leaves in the singleton. *)
Definition cleaned (g : mtmd_context_wrapper) : mtmd_context_wrapper :=
  if is_null (ctx g) then g else mtmd_context_wrapper_init.

Definition is_eval (ev : event) : bool :=
  match ev with
  | Ev_mtmd_helper_eval _ _ _ _ _ _ _ => true
  | _ => false
  end.

Definition is_kv_cache_clear (ev : event) : bool :=
  match ev with
  | Ev_llama_kv_cache_clear _ _ => true
  | _ => false
  end.

(** ** Concrete scenarios *)

Module Scenario.

(** A 1x1 RGB image and the chunks the scripted tokenizer answers with
    (three text tokens and an image block of four positions). *)
Definition pixel : list Byte.byte := [Byte.x80; Byte.x40; Byte.x20].
Definition chunks : mtmd_input_chunks := [chunk_text [1; 2; 3]; chunk_image 4%N].

Definition describe (reuse : bool) : glue_msg_process_image_req :=
  {| image_data := pixel; data_size := 3; width := 1; height := 1;
     prompt := "describe"; use_cache := reuse |}.

Definition init_req (marker : string) : glue_msg_init_mtmd_req :=
  {| mmproj_path := "mmproj.gguf"; req_use_gpu := false; req_n_threads := 0;
     req_image_marker := marker |}.

(** An engine whose [k]-th [mtmd_init_from_file] answers [inits[k]], that
    samples the tokens [toks] and then only [later], with end-of-sequence
    token 2, and whose [k]-th [llama_decode] answers [decodes[k]]. *)
Definition script (inits : list (outcome ptr)) (toks : list Z) (later : Z)
    (decodes : list Z) : Scripted.script :=
  {| Scripted.init_results := inits;
     Scripted.tokenize_result := Normal (0, chunks);
     Scripted.eval_result := Normal 0;
     Scripted.sampled := toks;
     Scripted.sampled_after := later;
     Scripted.eos_token := 2;
     Scripted.decode_results := decodes |}.

(** Two tokens, then end of sequence. *)
Definition two_tokens := script [Normal 300%N] [5; 6] 2 [].
(** The third decode step fails. *)
Definition third_decode_fails := script [Normal 300%N] [] 5 [0; 0; 1].
(** The end-of-sequence token is never sampled. *)
Definition never_eos := script [Normal 300%N] [] 5 [].
(** The first token sampled is the end-of-sequence token. *)
Definition eos_first := script [Normal 300%N] [] 2 [].
(** The engine builds a context at 300, then fails to build another. *)
Definition second_init_fails := script [Normal 300%N; Normal nullptr] [] 2 [].
(** The engine builds a context at 300, then one at 301. *)
Definition two_inits := script [Normal 300%N; Normal 301%N] [] 2 [].
(** The engine builds a context at 300; the next attempt throws something
    that is not a std::exception. *)
Definition second_init_throws :=
  script [Normal 300%N; Thrown unknown_exception] [] 2 [].
(** The engine cannot build a context. *)
Definition no_init := script [Normal nullptr] [] 2 [].

End Scenario.

(** ** The destructor of the singleton *)

Section Teardown.

Variable E : Engine.

(** [~mtmd_context_wrapper()] (lines 63-69), which runs on the static
    [g_mtmd_ctx] when the process is torn down. *)
Definition mtmd_context_wrapper_destroy : M E unit :=
  bind E (get_g E) (fun g =>
  bind E (if negb (is_null (ctx g)) then
            bind E (mtmd_free E (ctx g)) (fun _ =>
            put_g E {| ctx := nullptr; initialized := initialized g |})
          else ret E tt) (fun _ =>
  bind E (get_g E) (fun g =>
  put_g E {| ctx := ctx g; initialized := false |}))).

End Teardown.

(** ** More observations on runs *)

(** The flag of the singleton says whether its pointer is set. *)
Definition flag_agrees (g : mtmd_context_wrapper) : bool :=
  Bool.eqb (initialized g) (negb (is_null (ctx g))).

Definition mem_ptr (p : ptr) (l : list ptr) : bool := existsb (N.eqb p) l.

(** Every multimodal context freed or used by a call of [t] is alive at
    that point, given the contexts alive before [t]. *)
Fixpoint context_safe (t : trace) (live : list ptr) : bool :=
  match t with
  | [] => true
  | Ev_mtmd_free c :: t' => mem_ptr c live && context_safe t' (remove_one c live)
  | Ev_mtmd_init_from_file _ _ _ (Normal p) :: t' =>
      context_safe t' (if is_null p then live else p :: live)
  | Ev_mtmd_tokenize c _ _ _ :: t' => mem_ptr c live && context_safe t' live
  | Ev_mtmd_helper_eval c _ _ _ _ _ _ :: t' => mem_ptr c live && context_safe t' live
  | _ :: t' => context_safe t' live
  end.

(** The exception a call ended with, if it threw. *)
Definition exn_of {A : Type} (r : outcome A) : option exn :=
  match r with
  | Normal _ => None
  | Thrown e => Some e
  end.

Definition thrown (ev : event) : option exn :=
  match ev with
  | Ev_mtmd_free _ => None
  | Ev_mtmd_init_from_file _ _ _ r => exn_of r
  | Ev_mtmd_tokenize _ _ _ r => exn_of r
  | Ev_llama_kv_cache_clear _ r => exn_of r
  | Ev_llama_n_batch _ r => exn_of r
  | Ev_mtmd_helper_eval _ _ _ _ _ _ r => exn_of r
  | Ev_mtmd_helper_get_n_tokens _ r => exn_of r
  | Ev_wcommon_sampler_free _ r => exn_of r
  | Ev_wcommon_sampler_init _ _ r => exn_of r
  | Ev_wcommon_sampler_sample _ _ _ r => exn_of r
  | Ev_llama_token_eos _ r => exn_of r
  | Ev_llama_token_to_piece _ _ r => exn_of r
  | Ev_wcommon_sampler_accept _ _ r => exn_of r
  | Ev_llama_decode _ _ r => exn_of r
  end.

(** A call that returned a non-zero status where the handler tests it. *)
Definition reported_failure (ev : event) : bool :=
  match ev with
  | Ev_mtmd_tokenize _ _ _ (Normal (status, _)) => negb (status =? 0)
  | Ev_mtmd_helper_eval _ _ _ _ _ _ (Normal status) => negb (status =? 0)
  | Ev_llama_decode _ _ (Normal status) => negb (status =? 0)
  | _ => false
  end.

Definition event_failed (ev : event) : bool :=
  match thrown ev with
  | Some _ => true
  | None => reported_failure ev
  end.

(** The response [action_process_image] gives for a caught exception
    (lines 262-266). *)
Definition caught (e : exn) : glue_msg_process_image_res :=
  match e with
  | std_exception what => res_error ("Exception: " ++ what)%string
  | unknown_exception => res_error "Unknown error occurred during image processing"
  end.

(** The batch slots submitted to [llama_decode], in order. *)
Definition decode_slots (t : trace) : list batch_entry :=
  flat_map (fun ev => match ev with
                      | Ev_llama_decode _ b _ => b
                      | _ => []
                      end) t.

(** [k] consecutive positions from [start], with the wrap-around of
    [n_past += 1]. *)
Fixpoint positions_from (start : Z) (k : nat) : list Z :=
  match k with
  | O => []
  | S k' => start :: positions_from (int_add start 1) k'
  end.

(** Every decode step directly follows the sampling of its token: the batch
    holds that one token, at the position given to the sampler, on sequence
    0, with logits requested. *)
Definition decodes_follow_sampling (t : trace) : Prop :=
  forall pre lctx b r post,
    t = pre ++ Ev_llama_decode lctx b r :: post ->
    exists pre' smpl lctx' idx model tok eos str,
      pre = pre' ++ [Ev_wcommon_sampler_sample smpl lctx' idx (Normal tok);
                     Ev_llama_token_eos model (Normal eos);
                     Ev_llama_token_to_piece lctx tok (Normal str);
                     Ev_wcommon_sampler_accept smpl tok (Normal tt)]
      /\ b = [{| b_token := tok; b_pos := idx; b_seq_ids := [0]; b_logits := true |}]
      /\ lctx' = lctx.

(** A call that neither creates nor destroys a multimodal context, and uses
    no multimodal context but [c]. *)
Definition uses_only (c : ptr) (ev : event) : bool :=
  match ev with
  | Ev_mtmd_free _ => false
  | Ev_mtmd_init_from_file _ _ _ _ => false
  | Ev_mtmd_tokenize c' _ _ _ => N.eqb c' c
  | Ev_mtmd_helper_eval c' _ _ _ _ _ _ => N.eqb c' c
  | _ => true
  end.

(** A scripted engine whose [wcommon_sampler_init] throws [e]. *)
Definition sampler_init_throws (sc : Scripted.script) (e : exn) : Engine :=
  let E := Scripted.engine sc in
  {| World := World E;
     std_hash := std_hash E;
     length_error_what := length_error_what E;
     bad_alloc_what := bad_alloc_what E;
     E_operator_new := E_operator_new E;
     default_image_marker := default_image_marker E;
     E_mtmd_free := E_mtmd_free E;
     E_mtmd_init_from_file := E_mtmd_init_from_file E;
     E_mtmd_tokenize := E_mtmd_tokenize E;
     E_mtmd_helper_eval := E_mtmd_helper_eval E;
     E_mtmd_helper_get_n_tokens := E_mtmd_helper_get_n_tokens E;
     E_llama_kv_cache_clear := E_llama_kv_cache_clear E;
     E_llama_n_batch := E_llama_n_batch E;
     E_llama_token_eos := E_llama_token_eos E;
     E_llama_token_to_piece := E_llama_token_to_piece E;
     E_llama_decode := E_llama_decode E;
     E_wcommon_sampler_free := E_wcommon_sampler_free E;
     E_wcommon_sampler_init := fun _ _ w => (Thrown e, w);
     E_wcommon_sampler_sample := E_wcommon_sampler_sample E;
     E_wcommon_sampler_accept := E_wcommon_sampler_accept E |}.

(** * Reasoning about runs *)

Section Inversion.

Variable E : Engine.

Lemma ret_inv {A} (a : A) (s : state E) o s' t :
  ret E a s = (o, s', t) -> o = Normal a /\ s' = s /\ t = [].
Proof. unfold ret. intros H. inversion H. auto. Qed.

Lemma throw_inv {A} (e : exn) (s : state E) (o : outcome A) s' t :
  throw E e s = (o, s', t) -> o = Thrown e /\ s' = s /\ t = [].
Proof. unfold throw. intros H. inversion H. auto. Qed.

Lemma bind_inv {A B} (m : M E A) (k : A -> M E B) (s : state E) o s' t :
  bind E m k s = (o, s', t) ->
  (exists a s1 t1 t2,
      m s = (Normal a, s1, t1) /\ k a s1 = (o, s', t2) /\ t = t1 ++ t2)
  \/ (exists e, m s = (Thrown e, s', t) /\ o = Thrown e).
Proof.
  unfold bind. destruct (m s) as [[[a | e] s1] t1].
  - destruct (k a s1) as [[o2 s2] t2] eqn:Hk. intros H. inversion H. subst.
    left. exists a, s1, t1, t2. auto.
  - intros H. inversion H. subst. right. exists e. auto.
Qed.

Lemma try_catch_inv {A} (m : M E A) (h : exn -> M E A) (s : state E) o s' t :
  try_catch E m h s = (o, s', t) ->
  (exists a, m s = (Normal a, s', t) /\ o = Normal a)
  \/ (exists e s1 t1 t2,
         m s = (Thrown e, s1, t1) /\ h e s1 = (o, s', t2) /\ t = t1 ++ t2).
Proof.
  unfold try_catch. destruct (m s) as [[[a | e] s1] t1].
  - intros H. inversion H. subst. left. exists a. auto.
  - destruct (h e s1) as [[o2 s2] t2] eqn:Hh. intros H. inversion H. subst.
    right. exists e, s1, t1, t2. auto.
Qed.

Lemma get_app_inv (s : state E) o s' t :
  get_app E s = (o, s', t) -> o = Normal (app s) /\ s' = s /\ t = [].
Proof. unfold get_app. intros H. inversion H. auto. Qed.

Lemma get_g_inv (s : state E) o s' t :
  get_g E s = (o, s', t) -> o = Normal (g_mtmd_ctx s) /\ s' = s /\ t = [].
Proof. unfold get_g. intros H. inversion H. auto. Qed.

Lemma get_world_inv (s : state E) o s' t :
  get_world E s = (o, s', t) -> o = Normal (world s) /\ s' = s /\ t = [].
Proof. unfold get_world. intros H. inversion H. auto. Qed.

Lemma put_app_inv a (s : state E) o s' t :
  put_app E a s = (o, s', t) ->
  o = Normal tt /\
  s' = {| app := a; g_mtmd_ctx := g_mtmd_ctx s; world := world s |} /\ t = [].
Proof. unfold put_app. intros H. inversion H. auto. Qed.

Lemma put_g_inv g (s : state E) o s' t :
  put_g E g s = (o, s', t) ->
  o = Normal tt /\
  s' = {| app := app s; g_mtmd_ctx := g; world := world s |} /\ t = [].
Proof. unfold put_g. intros H. inversion H. auto. Qed.

Lemma engine_call_inv {A} (f : World E -> outcome A * World E) ev (s : state E) o s' t :
  engine_call E f ev s = (o, s', t) ->
  exists w, f (world s) = (o, w) /\ s' = put_world E w s /\ t = [ev o].
Proof.
  unfold engine_call. destruct (f (world s)) as [o1 w] eqn:Hf.
  intros H. inversion H. subst. exists w. auto.
Qed.

Lemma mtmd_free_inv c (s : state E) o s' t :
  mtmd_free E c s = (o, s', t) ->
  o = Normal tt /\ s' = put_world E (E_mtmd_free E c (world s)) s /\
  t = [Ev_mtmd_free c].
Proof. unfold mtmd_free. intros H. inversion H. auto. Qed.

End Inversion.

(** [invert_run] takes a hypothesis [m s = (o, s', t)] apart along the
    structure of [m], one case per path through the code. *)
Ltac invert_step :=
  match goal with
  | H : Normal _ = Thrown _ |- _ => discriminate H
  | H : Thrown _ = Normal _ |- _ => discriminate H
  | H : Normal _ = Normal _ |- _ => injection H as H; try subst
  | H : Thrown _ = Thrown _ |- _ => injection H as H; try subst
  | H : (_, _) = (_, _) |- _ => injection H as ? ?; try subst
  | H : ret _ _ _ = (_, _, _) |- _ =>
      apply ret_inv in H; destruct H as (? & ? & ?)
  | H : throw _ _ _ = (_, _, _) |- _ =>
      apply throw_inv in H; destruct H as (? & ? & ?)
  | H : get_app _ _ = (_, _, _) |- _ =>
      apply get_app_inv in H; destruct H as (? & ? & ?)
  | H : get_g _ _ = (_, _, _) |- _ =>
      apply get_g_inv in H; destruct H as (? & ? & ?)
  | H : get_world _ _ = (_, _, _) |- _ =>
      apply get_world_inv in H; destruct H as (? & ? & ?)
  | H : put_app _ _ _ = (_, _, _) |- _ =>
      apply put_app_inv in H; destruct H as (? & ? & ?)
  | H : put_g _ _ _ = (_, _, _) |- _ =>
      apply put_g_inv in H; destruct H as (? & ? & ?)
  | H : mtmd_free _ _ _ = (_, _, _) |- _ =>
      apply mtmd_free_inv in H; destruct H as (? & ? & ?)
  | H : engine_call _ _ _ _ = (_, _, _) |- _ =>
      apply engine_call_inv in H; destruct H as (? & ? & ? & ?)
  | H : (let (_, _) := ?p in _) _ = (_, _, _) |- _ => destruct p
  | H : (match ?e with std_exception _ => _ | unknown_exception => _ end) _
        = (_, _, _) |- _ => destruct e
  | H : (match ?x with loop_done _ => _ | loop_return _ => _ end) _
        = (_, _, _) |- _ => destruct x
  | H : (if ?b then _ else _) _ = (_, _, _) |- _ => destruct b eqn:?
  | H : try_catch _ _ _ _ = (_, _, _) |- _ =>
      apply try_catch_inv in H;
      destruct H as [(? & ? & ?) | (? & ? & ? & ? & ? & ? & ?)]
  | H : bind _ _ _ _ = (_, _, _) |- _ =>
      apply bind_inv in H;
      destruct H as [(? & ? & ? & ? & ? & ? & ?) | (? & ? & ?)]
  end.

Ltac unfold_calls :=
  unfold mtmd_init_from_file, mtmd_tokenize, llama_kv_cache_clear, llama_n_batch,
    mtmd_helper_eval, mtmd_helper_get_n_tokens, wcommon_sampler_free,
    wcommon_sampler_init, wcommon_sampler_sample, llama_token_eos,
    llama_token_to_piece, wcommon_sampler_accept, llama_decode,
    llama_batch_clear, llama_batch_add, set_ctx_sampling, vector_resize in *.

Ltac invert_run := unfold_calls; cbv zeta in *; repeat (invert_step; try subst).

Ltac simpl_state :=
  cbn [app g_mtmd_ctx world put_world app_model app_ctx app_ctx_sampling
       app_batch ctx initialized List.app fst snd] in *.

(** ** Traces *)

Lemma string_append_assoc (a b c : string) :
  ((a ++ b) ++ c = a ++ (b ++ c))%string.
Proof. induction a as [|ch a IH]; cbn; [reflexivity | now rewrite IH]. Qed.

Lemma string_append_empty_r (a : string) : (a ++ EmptyString)%string = a.
Proof. induction a as [|ch a IH]; cbn; [reflexivity | now rewrite IH]. Qed.

Lemma pieces_app (t1 t2 : trace) :
  pieces (t1 ++ t2) = (pieces t1 ++ pieces t2)%string.
Proof.
  induction t1 as [|ev t1 IH]; cbn; [reflexivity|].
  fold (pieces (t1 ++ t2)). fold (pieces t1).
  now rewrite IH, string_append_assoc.
Qed.

Lemma count_samples_app (t1 t2 : trace) :
  count_samples (t1 ++ t2) = (count_samples t1 + count_samples t2)%nat.
Proof. unfold count_samples. now rewrite filter_app, length_app. Qed.

Lemma count_decoded_app (t1 t2 : trace) :
  count_decoded (t1 ++ t2) = (count_decoded t1 + count_decoded t2)%nat.
Proof. unfold count_decoded. now rewrite filter_app, length_app. Qed.

Lemma setup_no_samples (t : trace) :
  Forall (fun ev => loop_event ev = false) t -> count_samples t = 0%nat.
Proof.
  induction 1 as [|ev t Hev _ IH]; [reflexivity|].
  unfold count_samples in *. cbn. destruct ev; cbn in *; try discriminate; exact IH.
Qed.

Lemma setup_no_decoded (t : trace) :
  Forall (fun ev => loop_event ev = false) t -> count_decoded t = 0%nat.
Proof.
  induction 1 as [|ev t Hev _ IH]; [reflexivity|].
  unfold count_decoded in *. cbn. destruct ev; cbn in *; try discriminate; exact IH.
Qed.

Lemma setup_no_pieces (t : trace) :
  Forall (fun ev => loop_event ev = false) t -> pieces t = EmptyString.
Proof.
  induction 1 as [|ev t Hev _ IH]; [reflexivity|].
  cbn. fold (pieces t). rewrite IH. destruct ev; cbn in *; try discriminate; reflexivity.
Qed.

(** Taking [pre ++ x :: post] apart against an explicit list. *)
Ltac peel Heq :=
  repeat match type of Heq with
         | _ :: _ = ?pre ++ _ :: _ =>
             let e := fresh "e" in
             destruct pre as [|e pre]; cbn [List.app] in Heq;
             [ first [discriminate Heq | injection Heq as ? ?]
             | injection Heq as ? Heq ]
         end.

Lemma suffix_split : forall (prefix lt pre : trace) x post,
  prefix ++ lt = pre ++ x :: post -> ~ In x prefix ->
  exists pre', pre = prefix ++ pre' /\ lt = pre' ++ x :: post.
Proof.
  induction prefix as [|a prefix IH]; intros lt pre x post Heq Hnot.
  - exists pre. auto.
  - destruct pre as [|b pre]; cbn [List.app] in Heq; injection Heq as Hhd Htl.
    + exfalso. apply Hnot. left. exact Hhd.
    + subst b. destruct (IH _ _ _ _ Htl) as (pre' & -> & ->).
      * intros Hin. apply Hnot. right. exact Hin.
      * exists pre'. auto.
Qed.


(** ** The generation loop *)

Section Loop.

Variable E : Engine.

Ltac loop_cases H := cbn [generate] in H; invert_run; simpl_state.

Ltac use_IH IH :=
  match goal with
  | H : generate _ _ _ _ _ = _ |- _ => pose proof (IH _ _ _ _ _ _ H)
  end.

Ltac split_in :=
  repeat match goal with
         | H : In _ (_ :: _) |- _ => cbn [In] in H
         | H : _ \/ _ |- _ => destruct H
         | H : False |- _ => destruct H
         | H : In _ [] |- _ => destruct H
         end.

(** The loop writes neither the multimodal singleton nor the model and
    context pointers of [app]. *)
Lemma generate_frame : forall n txt np (s : state E) o s' t,
  generate E n txt np s = (o, s', t) ->
  g_mtmd_ctx s' = g_mtmd_ctx s /\
  app_model (app s') = app_model (app s) /\
  app_ctx (app s') = app_ctx (app s).
Proof.
  induction n as [|n IH]; intros txt np s o s' t H.
  - loop_cases H. auto.
  - loop_cases H; try use_IH IH; simpl_state; auto.
Qed.

Lemma generate_loop_events : forall n txt np (s : state E) o s' t,
  generate E n txt np s = (o, s', t) -> Forall (fun ev => loop_event ev = true) t.
Proof.
  induction n as [|n IH]; intros txt np s o s' t H.
  - loop_cases H. constructor.
  - loop_cases H; try use_IH IH; repeat (constructor; [reflexivity|]); auto.
Qed.

(** At most one sampling step per iteration. *)
Lemma generate_samples : forall n txt np (s : state E) o s' t,
  generate E n txt np s = (o, s', t) -> (count_samples t <= n)%nat.
Proof.
  induction n as [|n IH]; intros txt np s o s' t H.
  - loop_cases H. cbn. lia.
  - loop_cases H; try use_IH IH; unfold count_samples in *; cbn; lia.
Qed.

(** A trace of the loop starts with a sampling step. *)
Lemma generate_starts : forall n txt np (s : state E) o s' t,
  generate E n txt np s = (o, s', t) ->
  t = [] \/ exists smpl lctx idx r t', t = Ev_wcommon_sampler_sample smpl lctx idx r :: t'.
Proof.
  destruct n as [|n]; intros txt np s o s' t H.
  - loop_cases H. auto.
  - loop_cases H; right; eauto 10.
Qed.

(** A failed decode step ends the loop through the [return] of line 252, and
    nothing is called after it. *)
Lemma generate_decode_failed_last : forall n txt np (s : state E) o s' t,
  generate E n txt np s = (o, s', t) ->
  forall pre lctx b r post,
  t = pre ++ Ev_llama_decode lctx b (Normal r) :: post -> r <> 0 ->
  o = Normal (loop_return (failure DecodeFailed)) /\ post = [].
Proof.
  induction n as [|n IH]; intros txt np s o s' t H pre lctx b r post Heq Hr;
    cbn [generate] in H; invert_run; simpl_state.
  all: try (symmetry in Heq; apply app_cons_not_nil in Heq; destruct Heq).
  all: peel Heq.
  all: try discriminate.
  all: try (exfalso; eapply app_cons_not_nil; eassumption).
  all: try match goal with
           | Hg : generate _ _ _ _ _ = (_, _, ?lt), Hl : ?lt = _ ++ _ :: _ |- _ =>
               exact (IH _ _ _ _ _ _ Hg _ _ _ _ _ Hl Hr)
           end.
  all: subst; auto.
  match goal with
  | Hz : negb (?x =? 0) = false |- _ =>
      apply negb_false_iff, Z.eqb_eq in Hz; congruence
  end.
Qed.

(** The only [return] in the loop is the one of a failed decode step. *)
Lemma generate_return : forall n txt np (s : state E) s' t res,
  generate E n txt np s = (Normal (loop_return res), s', t) ->
  res = failure DecodeFailed.
Proof.
  induction n as [|n IH]; intros txt np s s' t res H.
  - loop_cases H. discriminate.
  - loop_cases H; try discriminate; try congruence; eauto.
Qed.

(** When the loop ends normally the text is what it started with followed
    by the fragments obtained, in order. *)
Lemma generate_done : forall n txt np (s : state E) s' t txt',
  generate E n txt np s = (Normal (loop_done txt'), s', t) ->
  txt' = (txt ++ pieces t)%string.
Proof.
  induction n as [|n IH]; intros txt np s s' t txt' H.
  - loop_cases H. cbn. rewrite string_append_empty_r. congruence.
  - loop_cases H; try discriminate.
    + cbn. rewrite string_append_empty_r. congruence.
    + match goal with
      | H : generate _ _ _ _ _ = _ |- _ => apply IH in H; rewrite H
      end.
      cbn. now rewrite string_append_assoc.
Qed.

(** An iteration is completed by a decode step with status 0; when all
    [n] iterations are completed the loop ends normally. *)
Lemma generate_exhausted : forall n txt np (s : state E) o s' t,
  generate E n txt np s = (o, s', t) ->
  (count_decoded t <= n)%nat /\
  (count_decoded t = n -> o = Normal (loop_done (txt ++ pieces t)%string)).
Proof.
  induction n as [|n IH]; intros txt np s o s' t H.
  - loop_cases H. cbn. rewrite string_append_empty_r. auto.
  - loop_cases H; try use_IH IH; unfold count_decoded in *; cbn [filter decode_ok List.length];
      try (split; [lia | intros; lia]).
    + match goal with
      | H : negb (?x =? 0) = true |- _ =>
          apply negb_true_iff in H; rewrite H
      end.
      cbn. split; [lia | intros; lia].
    + match goal with
      | H : negb (?x =? 0) = false |- _ =>
          apply negb_false_iff in H; rewrite H
      end.
      cbn [List.length].
      match goal with
      | HIH : (_ <= _)%nat /\ _ |- _ => destruct HIH as [Hle Heq]
      end.
      split; [lia|].
      intros Hn. rewrite Heq by lia. cbn. now rewrite string_append_assoc.
Qed.

(** When the first sampled token is the end-of-sequence token the loop ends
    at once, with the text it started with. *)
Lemma generate_first_eos : forall n txt np (s : state E) o s' t,
  generate E n txt np s = (o, s', t) ->
  forall smpl lctx idx model tok post,
  t = Ev_wcommon_sampler_sample smpl lctx idx (Normal tok)
        :: Ev_llama_token_eos model (Normal tok) :: post ->
  o = Normal (loop_done txt) /\ post = [].
Proof.
  destruct n as [|n]; intros txt np s o s' t H smpl lctx idx model tok post Ht.
  - loop_cases H. discriminate.
  - loop_cases H; try discriminate; injection Ht as ? ? ? ? ? ? ?; subst;
      try discriminate; auto.
    all: rewrite Z.eqb_refl in *; discriminate.
Qed.
End Loop.

(** ** Requests for a token's text are guarded by the end-of-sequence test *)

Lemma pieces_guarded_none (t : trace) :
  (forall ev, In ev t -> is_piece ev = false) -> pieces_guarded t.
Proof.
  intros Hno pre lctx tok r post Heq.
  assert (Hin : In (Ev_llama_token_to_piece lctx tok r) t)
    by (rewrite Heq; apply in_elt).
  apply Hno in Hin. discriminate.
Qed.

Lemma pieces_guarded_app (t1 t2 : trace) :
  (forall ev, In ev t1 -> is_piece ev = false) ->
  pieces_guarded t2 -> pieces_guarded (t1 ++ t2).
Proof.
  intros Hno Hg pre lctx tok r post Heq.
  apply app_eq_app in Heq. destruct Heq as [l0 [[H1 H2] | [H1 H2]]].
  - destruct l0 as [|x l0].
    + cbn in H2. symmetry in H2.
      destruct (Hg [] _ _ _ _ H2) as (pre' & ? & ? & ? & ? & ? & Hnil & _).
      symmetry in Hnil. apply app_eq_nil in Hnil. destruct Hnil; discriminate.
    + injection H2 as Hx _. subst x.
      assert (Hin : In (Ev_llama_token_to_piece lctx tok r) t1)
        by (rewrite H1; apply in_elt).
      apply Hno in Hin. discriminate.
  - destruct (Hg _ _ _ _ _ H2) as (pre' & smpl & l' & idx & m & eos & Hpre & Hne).
    exists (t1 ++ pre'), smpl, l', idx, m, eos. split; [|exact Hne].
    rewrite H1, Hpre. now rewrite app_assoc.
Qed.

Lemma pieces_guarded_iteration smpl lctx idx model tok eos lctx' r (t : trace) :
  tok <> eos ->
  pieces_guarded t ->
  pieces_guarded
    (Ev_wcommon_sampler_sample smpl lctx idx (Normal tok)
       :: Ev_llama_token_eos model (Normal eos)
       :: Ev_llama_token_to_piece lctx' tok r :: t).
Proof.
  intros Hne Hg pre l tk r' post Heq.
  destruct pre as [|a [|b [|c pre]]]; try discriminate.
  - injection Heq as ? ? ? ? ? ?. subst.
    exists [], smpl, lctx, idx, model, eos. auto.
  - injection Heq as ? ? ? Ht. subst a b c.
    destruct (Hg _ _ _ _ _ Ht) as (pre' & smpl' & l' & idx' & m' & eos' & Hpre & Hne').
    exists (Ev_wcommon_sampler_sample smpl lctx idx (Normal tok)
              :: Ev_llama_token_eos model (Normal eos)
              :: Ev_llama_token_to_piece lctx' tok r :: pre'),
      smpl', l', idx', m', eos'.
    split; [|exact Hne']. rewrite Hpre. reflexivity.
Qed.

Section LoopGuard.

Variable E : Engine.

Lemma generate_pieces_guarded : forall n txt np (s : state E) o s' t,
  generate E n txt np s = (o, s', t) -> pieces_guarded t.
Proof.
  induction n as [|n IH]; intros txt np s o s' t H; cbn [generate] in H;
    invert_run; simpl_state.
  all: try match goal with
           | H : generate _ _ _ _ _ = _ |- _ => apply IH in H
           end.
  all: try match goal with
           | H : (?x =? ?y) = false |- _ => apply Z.eqb_neq in H
           end.
  all: try (apply pieces_guarded_iteration; [assumption|]).
  all: try (apply (pieces_guarded_app [_; _]); [|assumption]).
  all: try (apply pieces_guarded_none).
  all: cbn [In]; intros ev Hin;
    repeat match goal with
           | H : _ \/ _ |- _ => destruct H
           | H : False |- _ => destruct H
           end; subst; reflexivity.
Qed.

End LoopGuard.

(** ** The shape of a run of [action_process_image] *)

Ltac prefix_of t lt :=
  lazymatch t with
  | lt => constr:(@nil event)
  | ?e :: ?t' => let p := prefix_of t' lt in constr:(e :: p)
  end.

Section ProcessImage.

Variable E : Engine.

(** A run is a sequence of set-up calls followed, when the set-up went
    through, by the calls of the generation loop; the response is built from
    the way the loop ended. *)
Lemma process_image_shape req (s : state E) o s' t :
  action_process_image E req s = (o, s', t) ->
  exists prefix lt,
    t = prefix ++ lt /\
    Forall (fun ev => loop_event ev = false) prefix /\
    ((lt = [] /\ exists res, o = Normal res /\ success res = false /\ result res = EmptyString)
     \/ (exists np s1 ol,
            generate E max_tokens EmptyString np s1 = (ol, s', lt) /\ o = Normal (finish ol))).
Proof.
  intros H. unfold action_process_image, process_image_try in H.
  invert_run; simpl_state; rewrite ?app_nil_r.
  all: lazymatch goal with
       | Hg : generate _ _ _ _ _ = (_, _, ?lt) |- exists p l, ?t = _ /\ _ =>
           let p := prefix_of t lt in
           exists p, lt; split; [reflexivity|];
           split; [repeat first [apply Forall_nil | apply Forall_cons; [reflexivity|]]|];
           right; eexists _, _, _; split; [exact Hg | reflexivity]
       | |- exists p l, ?t = _ /\ _ =>
           exists t, []; split; [now rewrite app_nil_r|];
           split; [repeat first [apply Forall_nil | apply Forall_cons; [reflexivity|]]|];
           left; split; [reflexivity|]; eexists; repeat split
       end.
Qed.

(** [action_process_image] always returns a response: every exception is
    caught. *)
Lemma process_image_returns req (s : state E) :
  exists res, outcome_of (action_process_image E req s) = Normal res.
Proof.
  destruct (action_process_image E req s) as [[o s'] t] eqn:H.
  apply process_image_shape in H.
  destruct H as (prefix & lt & _ & _ & [(_ & res & Ho & _) | (np & s1 & ol & _ & Ho)]);
    subst o; eexists; reflexivity.
Qed.

(** It never writes the multimodal singleton, nor the model and context
    pointers of [app]. *)
Lemma process_image_frame req (s : state E) o s' t :
  action_process_image E req s = (o, s', t) ->
  g_mtmd_ctx s' = g_mtmd_ctx s /\
  app_model (app s') = app_model (app s) /\
  app_ctx (app s') = app_ctx (app s).
Proof.
  intros H. unfold action_process_image, process_image_try in H.
  invert_run; simpl_state; auto.
  all: match goal with
       | Hg : generate _ _ _ _ _ = _ |- _ =>
           apply generate_frame in Hg; simpl_state; exact Hg
       end.
Qed.

End ProcessImage.

(** ** The runs of [action_init_mtmd] *)

Section InitMtmd.

Variable E : Engine.

Lemma init_mtmd_cases req (s : state E) o s' t :
  action_init_mtmd E req s = (o, s', t) ->
  (is_null (app_model (app s)) = true /\
   o = Normal (init_failure ModelNotLoaded) /\ s' = s /\ t = [])
  \/
  (is_null (app_model (app s)) = false /\
   app s' = app s /\
   exists params r,
     t = (if is_null (ctx (g_mtmd_ctx s)) then []
          else [Ev_mtmd_free (ctx (g_mtmd_ctx s))])
         ++ [Ev_mtmd_init_from_file (mmproj_path req) (app_model (app s)) params r] /\
     match r with
     | Normal p =>
         if is_null p then
           g_mtmd_ctx s' =
             {| ctx := p; initialized := initialized (cleaned (g_mtmd_ctx s)) |} /\
           o = Normal (init_failure MultimodalInitFailed)
         else
           g_mtmd_ctx s' = {| ctx := p; initialized := true |} /\
           o = Normal {| init_success := true; init_error := EmptyString |}
     | Thrown (std_exception what) =>
         g_mtmd_ctx s' = cleaned (g_mtmd_ctx s) /\
         o = Normal {| init_success := false;
                       init_error := ("Exception: " ++ what)%string |}
     | Thrown unknown_exception =>
         g_mtmd_ctx s' = cleaned (g_mtmd_ctx s) /\ o = Thrown unknown_exception
     end).
Proof.
  intros H. unfold action_init_mtmd in H. unfold cleaned.
  invert_run; simpl_state.
  all: first [ left; split; [reflexivity|]; now auto
             | right; split; [reflexivity|]; split; [reflexivity|] ].
  all: repeat match goal with
              | H : negb ?b = true |- _ => apply negb_true_iff in H
              | H : negb ?b = false |- _ => apply negb_false_iff in H
              end.
  all: repeat match goal with
              | H : is_null ?p = _ |- context [is_null ?p] => rewrite H
              end.
  all: eexists _, _; split; [reflexivity|]; cbn beta iota.
  all: repeat match goal with
              | H : is_null ?p = _ |- context [is_null ?p] => rewrite H
              end.
  all: auto.
Qed.

End InitMtmd.

(** * The claims *)

(** ** Ordering of initialization and use *)

Section NotReady.

Variable E : Engine.

Lemma unsuccessful_init_keeps_unready req (s : state E) o s' t :
  action_init_mtmd E req s = (o, s', t) ->
  is_ready (g_mtmd_ctx s) = false ->
  init_succeeded (InitResponse o) = false ->
  is_ready (g_mtmd_ctx s') = false.
Proof.
  intros H Hnr Hfail. apply init_mtmd_cases in H.
  destruct H as [(_ & _ & -> & _) | (_ & _ & params & r & _ & Hr)]; [exact Hnr|].
  unfold is_ready, cleaned in *.
  destruct r as [p | [what |]].
  - destruct (is_null p) eqn:Hp; destruct Hr as [Hg Ho].
    + rewrite Hg. cbn. rewrite Hp. apply andb_false_r.
    + subst o. discriminate.
  - destruct Hr as [Hg _]. rewrite Hg.
    destruct (is_null (ctx (g_mtmd_ctx s))) eqn:Hc; [|reflexivity].
    now rewrite Hc.
  - destruct Hr as [Hg _]. rewrite Hg.
    destruct (is_null (ctx (g_mtmd_ctx s))) eqn:Hc; [|reflexivity].
    now rewrite Hc.
Qed.

Lemma serve_keeps_unready : forall rqs (s : state E),
  is_ready (g_mtmd_ctx s) = false ->
  existsb init_succeeded (outcome_of (serve E rqs s)) = false ->
  is_ready (g_mtmd_ctx (state_of (serve E rqs s))) = false.
Proof.
  induction rqs as [|rq rqs IH]; intros s Hnr Hno; [exact Hnr|].
  cbn [serve] in *. unfold handle in *.
  destruct rq as [req | req].
  - destruct (action_init_mtmd E req s) as [[o s1] t1] eqn:H1.
    specialize (IH s1).
    destruct (serve E rqs s1) as [[rs s2] t2].
    unfold outcome_of, state_of in *. cbn [fst snd existsb] in *.
    apply orb_false_iff in Hno. destruct Hno as [Ho Hrs].
    apply IH; [|exact Hrs].
    eapply unsuccessful_init_keeps_unready; eauto.
  - destruct (action_process_image E req s) as [[o s1] t1] eqn:H1.
    specialize (IH s1).
    destruct (serve E rqs s1) as [[rs s2] t2].
    unfold outcome_of, state_of in *. cbn [fst snd existsb init_succeeded] in *.
    apply IH; [|exact Hno].
    apply process_image_frame in H1. destruct H1 as [Hg _]. now rewrite Hg.
Qed.

Lemma process_image_not_ready req (s : state E) :
  is_null (app_model (app s)) = false ->
  is_null (app_ctx (app s)) = false ->
  is_ready (g_mtmd_ctx s) = false ->
  action_process_image E req s = (Normal (failure ContextNotInitialized), s, []).
Proof.
  intros Hm Hc Hnr. unfold action_process_image, bind, get_app, get_g, ret.
  rewrite Hm, Hc. cbn [orb].
  unfold is_ready in Hnr.
  destruct (initialized (g_mtmd_ctx s)), (is_null (ctx (g_mtmd_ctx s)));
    cbn in *; try discriminate; reflexivity.
Qed.

End NotReady.

(** C1. A [processImage] request served while the text model and the
    inference context are present, after any sequence of requests among which
    no [initMultimodal] succeeded (starting from a multimodal context that is
    not ready, as it is at start-up), is answered with success=false and the
    ContextNotInitialized message, whatever the image bytes, dimensions,
    prompt and cache flag of the request; no engine call is made and the state
    is left as it was. *)
Theorem process_image_before_init (E : Engine) (history : list request)
    (s0 : state E) (req : glue_msg_process_image_req) :
  let served := serve E history s0 in
  let s := state_of served in
  is_ready (g_mtmd_ctx s0) = false ->
  existsb init_succeeded (outcome_of served) = false ->
  is_null (app_model (app s)) = false ->
  is_null (app_ctx (app s)) = false ->
  action_process_image E req s =
    (Normal {| success := false;
               error := "Multimodal context not initialized. Call initMultimodal() first.";
               result := EmptyString |}, s, []).
Proof.
  intros served s Hnr Hno Hm Hc.
  apply (process_image_not_ready E req s Hm Hc).
  apply serve_keeps_unready; assumption.
Qed.

Lemma process_image_before_init_witness :
  let E := Scripted.engine Scenario.no_init in
  let s := state_of (serve E [ProcessImage (Scenario.describe false);
                              InitMultimodal (Scenario.init_req EmptyString)]
                       (Scripted.fresh Scenario.no_init)) in
  action_process_image E (Scenario.describe true) s =
    (Normal {| success := false;
               error := "Multimodal context not initialized. Call initMultimodal() first.";
               result := EmptyString |}, s, []).
Proof.
  intros E s.
  apply (process_image_before_init E
           [ProcessImage (Scenario.describe false);
            InitMultimodal (Scenario.init_req EmptyString)]
           (Scripted.fresh Scenario.no_init) (Scenario.describe true));
    reflexivity.
Defined.

(** ** The multimodal singleton is not written by [action_process_image] *)

(** C8. A [processImage] call that returns success=false, for whichever
    reason, leaves the multimodal singleton as it was: the engine context
    pointer and the initialized flag are the same before and after. *)
Theorem failed_process_image_keeps_context (E : Engine)
    (req : glue_msg_process_image_req) (s : state E)
    (res : glue_msg_process_image_res) :
  outcome_of (action_process_image E req s) = Normal res ->
  success res = false ->
  ctx (g_mtmd_ctx (state_of (action_process_image E req s))) = ctx (g_mtmd_ctx s) /\
  initialized (g_mtmd_ctx (state_of (action_process_image E req s)))
    = initialized (g_mtmd_ctx s).
Proof.
  intros _ _.
  destruct (action_process_image E req s) as [[o s'] t] eqn:H.
  apply process_image_frame in H. destruct H as [Hg _].
  unfold state_of. cbn [fst snd]. now rewrite Hg.
Qed.

Lemma failed_process_image_keeps_context_witness :
  let E := Scripted.engine Scenario.third_decode_fails in
  let run := action_process_image E (Scenario.describe false)
               (Scripted.ready Scenario.third_decode_fails) in
  ctx (g_mtmd_ctx (state_of run)) = 300%N /\
  initialized (g_mtmd_ctx (state_of run)) = true.
Proof.
  intros E run.
  apply (failed_process_image_keeps_context E (Scenario.describe false)
           (Scripted.ready Scenario.third_decode_fails) (failure DecodeFailed));
    reflexivity.
Defined.

(** ** The generation loop *)

Lemma not_loop_event_in (ev : event) (prefix : trace) :
  Forall (fun ev => loop_event ev = false) prefix ->
  loop_event ev = true -> ~ In ev prefix.
Proof.
  intros Hall Hev Hin. rewrite Forall_forall in Hall.
  apply Hall in Hin. congruence.
Qed.

(** C4. When a decode step of the generation loop reports a non-zero status,
    whatever the iteration, the loop stops there (nothing is called after
    it) and the response is success=false with the DecodeFailed message and
    an empty result: the text accumulated in the iterations before is not
    returned. *)
Theorem decode_failure_discards_text (E : Engine)
    (req : glue_msg_process_image_req) (s : state E) (pre post : trace)
    (lctx : ptr) (b : llama_batch) (status : Z) :
  trace_of (action_process_image E req s) =
    pre ++ Ev_llama_decode lctx b (Normal status) :: post ->
  status <> 0 ->
  outcome_of (action_process_image E req s) =
    Normal {| success := false; error := "Failed to decode token";
              result := EmptyString |} /\
  post = [].
Proof.
  intros Heq Hst.
  destruct (action_process_image E req s) as [[o s'] t] eqn:H.
  unfold trace_of, outcome_of in *. cbn [fst snd] in *.
  apply process_image_shape in H.
  destruct H as (prefix & lt & -> & Hpre & Hcases).
  apply suffix_split in Heq; [|now apply not_loop_event_in].
  destruct Heq as (pre' & _ & Hlt).
  destruct Hcases as [(-> & _) | (np & s1 & ol & Hgen & ->)].
  - apply app_cons_not_nil in Hlt. destruct Hlt.
  - destruct (generate_decode_failed_last E _ _ _ _ _ _ _ Hgen _ _ _ _ _ Hlt Hst)
      as [-> ->].
    split; reflexivity.
Qed.

Lemma decode_failure_discards_text_witness :
  let E := Scripted.engine Scenario.third_decode_fails in
  let run := action_process_image E (Scenario.describe false)
               (Scripted.ready Scenario.third_decode_fails) in
  pieces (trace_of run) = "<5><5><5>" /\
  outcome_of run =
    Normal {| success := false; error := "Failed to decode token";
              result := EmptyString |}.
Proof.
  intros E run. split; [vm_compute; reflexivity|].
  refine (proj1 (decode_failure_discards_text E (Scenario.describe false)
           (Scripted.ready Scenario.third_decode_fails)
           (firstn 20 (trace_of run)) (skipn 21 (trace_of run)) 200%N
           [{| b_token := 5; b_pos := 9; b_seq_ids := [0]; b_logits := true |}] 1
           _ _)).
  - vm_compute. reflexivity.
  - discriminate.
Defined.

(** C5. The generation loop is bounded: for every engine and every request
    [action_process_image] returns a response, and the run contains at most
    1024 sampling steps; when all 1024 iterations are completed (so that the
    end-of-sequence token was never sampled and no decode step failed) the
    response is success=true, with an empty error and the text accumulated
    from all the fragments. *)
Theorem generation_bounded (E : Engine) (req : glue_msg_process_image_req)
    (s : state E) :
  let run := action_process_image E req s in
  (exists res, outcome_of run = Normal res) /\
  (count_samples (trace_of run) <= 1024)%nat /\
  (count_decoded (trace_of run) = 1024%nat ->
   outcome_of run =
     Normal {| success := true; error := EmptyString; result := pieces (trace_of run) |}).
Proof.
  intros run. split; [apply process_image_returns|].
  subst run.
  destruct (action_process_image E req s) as [[o s'] t] eqn:H.
  unfold trace_of, outcome_of. cbn [fst snd].
  apply process_image_shape in H.
  destruct H as (prefix & lt & -> & Hpre & Hcases).
  rewrite count_samples_app, count_decoded_app, pieces_app.
  rewrite (setup_no_samples _ Hpre), (setup_no_decoded _ Hpre), (setup_no_pieces _ Hpre).
  cbn [Nat.add String.append].
  destruct Hcases as [(-> & _) | (np & s1 & ol & Hgen & ->)].
  - split; [cbn; lia | cbn; intros Hn; exfalso; lia].
  - split.
    + apply generate_samples in Hgen. exact Hgen.
    + intros Hn. apply generate_exhausted in Hgen. destruct Hgen as [_ Hgen].
      rewrite (Hgen Hn). reflexivity.
Qed.

Lemma generation_bounded_witness :
  let E := Scripted.engine Scenario.never_eos in
  let run := action_process_image E (Scenario.describe false)
               (Scripted.ready Scenario.never_eos) in
  count_decoded (trace_of run) = 1024%nat /\
  outcome_of run =
    Normal {| success := true; error := EmptyString; result := pieces (trace_of run) |}.
Proof.
  intros E run.
  assert (Hn : count_decoded (trace_of run) = 1024%nat) by (vm_compute; reflexivity).
  split; [exact Hn|].
  exact (proj2 (proj2 (generation_bounded E (Scenario.describe false)
                         (Scripted.ready Scenario.never_eos))) Hn).
Defined.

Lemma first_sample_unique : forall (p1 p2 : trace) x y r1 r2,
  p1 ++ x :: r1 = p2 ++ y :: r2 ->
  count_samples p1 = 0%nat -> count_samples p2 = 0%nat ->
  is_sample x = true -> is_sample y = true ->
  p1 = p2 /\ x = y /\ r1 = r2.
Proof.
  unfold count_samples.
  induction p1 as [|a p1 IH]; intros [|b p2] x y r1 r2 Heq H1 H2 Hx Hy;
    cbn [List.app] in Heq; injection Heq as Hhd Htl.
  - auto.
  - subst b. cbn in H2. rewrite Hx in H2. discriminate.
  - subst a. cbn in H1. rewrite Hy in H1. discriminate.
  - subst b. cbn in H1, H2. destruct (is_sample a); [discriminate|].
    destruct (IH _ _ _ _ _ Htl H1 H2 Hx Hy) as (-> & -> & ->). auto.
Qed.

Lemma setup_no_piece_events (prefix : trace) :
  Forall (fun ev => loop_event ev = false) prefix ->
  forall ev, In ev prefix -> is_piece ev = false.
Proof.
  intros Hall ev Hin. rewrite Forall_forall in Hall. apply Hall in Hin.
  destruct ev; cbn in *; congruence.
Qed.

(** C9. When the first token sampled is the end-of-sequence token, the
    response is success=true with an empty result and an empty error.  In
    every run, the text of a token is requested only right after that token
    was sampled and found different from the end-of-sequence token, and the
    result of a successful run is made of exactly the fragments so obtained:
    the fragment of the end-of-sequence token is never part of it. *)
Theorem eos_text_never_appended (E : Engine) (req : glue_msg_process_image_req)
    (s : state E) :
  let run := action_process_image E req s in
  (first_sampled_is_eos (trace_of run) ->
   outcome_of run =
     Normal {| success := true; error := EmptyString; result := EmptyString |}) /\
  pieces_guarded (trace_of run) /\
  (forall res, outcome_of run = Normal res -> success res = true ->
               result res = pieces (trace_of run)).
Proof.
  intros run. subst run.
  destruct (action_process_image E req s) as [[o s'] t] eqn:H.
  unfold trace_of, outcome_of. cbn [fst snd].
  apply process_image_shape in H.
  destruct H as (prefix & lt & -> & Hpre & Hcases).
  split; [|split].
  - intros (pre & smpl & lctx & idx & model & tok & post & Heq & Hnone).
    destruct Hcases as [(-> & _) | (np & s1 & ol & Hgen & ->)].
    + exfalso. rewrite app_nil_r in Heq.
      apply (not_loop_event_in
               (Ev_wcommon_sampler_sample smpl lctx idx (Normal tok)) prefix Hpre);
        [reflexivity|].
      rewrite Heq. apply in_elt.
    + destruct (generate_starts E _ _ _ _ _ _ _ Hgen)
        as [-> | (smpl' & lctx' & idx' & r' & t' & ->)].
      * exfalso. rewrite app_nil_r in Heq.
        apply (not_loop_event_in
                 (Ev_wcommon_sampler_sample smpl lctx idx (Normal tok)) prefix Hpre);
          [reflexivity|].
        rewrite Heq. apply in_elt.
      * apply first_sample_unique in Heq;
          [| apply setup_no_samples; exact Hpre | exact Hnone
           | reflexivity | reflexivity].
        destruct Heq as (_ & Hev & ->). rewrite Hev in Hgen.
        destruct (generate_first_eos E _ _ _ _ _ _ _ Hgen _ _ _ _ _ _ eq_refl)
          as [-> _].
        reflexivity.
  - apply pieces_guarded_app; [apply setup_no_piece_events; exact Hpre|].
    destruct Hcases as [(-> & _) | (np & s1 & ol & Hgen & _)].
    + apply pieces_guarded_none. intros ev [].
    + eapply generate_pieces_guarded; eassumption.
  - intros res Ho Hs.
    rewrite pieces_app, (setup_no_pieces _ Hpre). cbn [String.append].
    destruct Hcases as [(-> & res' & -> & Hf & _) | (np & s1 & ol & Hgen & ->)].
    + injection Ho as <-. congruence.
    + injection Ho as <-.
      destruct ol as [[txt | res'] | [what |]]; cbn in Hs |- *; try discriminate.
      * apply generate_done in Hgen. exact Hgen.
      * apply generate_return in Hgen. subst res'. discriminate.
Qed.

Lemma eos_text_never_appended_witness :
  let E := Scripted.engine Scenario.eos_first in
  let run := action_process_image E (Scenario.describe false)
               (Scripted.ready Scenario.eos_first) in
  outcome_of run = Normal {| success := true; error := EmptyString; result := EmptyString |}.
Proof.
  intros E run.
  apply (proj1 (eos_text_never_appended E (Scenario.describe false)
                  (Scripted.ready Scenario.eos_first))).
  exists [Ev_mtmd_tokenize 300%N
            {| text := "describe <__image__>"; add_special := true;
               parse_special := true |}
            [{| nx := 1; ny := 1; data := Scenario.pixel; id := "img_3" |}]
            (Normal (0, Scenario.chunks));
          Ev_llama_kv_cache_clear 200%N (Normal tt);
          Ev_llama_n_batch 200%N (Normal 512);
          Ev_mtmd_helper_eval 300%N 200%N Scenario.chunks 0 0 512 (Normal 0);
          Ev_mtmd_helper_get_n_tokens Scenario.chunks (Normal 7%N);
          Ev_wcommon_sampler_init 100%N sparams_literal (Normal 700%N)],
    700%N, 200%N, 7, 100%N, 2, [].
  split; reflexivity.
Defined.

(** ** Re-initialization *)

Lemma live_contexts_app (t1 t2 : trace) (live : list ptr) :
  live_contexts (t1 ++ t2) live = live_contexts t2 (live_contexts t1 live).
Proof.
  revert live. induction t1 as [|ev t1 IH]; intros live; [reflexivity|].
  destruct ev; cbn [List.app live_contexts]; try apply IH.
  destruct r; apply IH.
Qed.

Lemma held_cleaned (g : mtmd_context_wrapper) : held (cleaned g) = [].
Proof.
  unfold held, cleaned. destruct (is_null (ctx g)) eqn:Hc; [now rewrite Hc | reflexivity].
Qed.

Lemma held_length (g : mtmd_context_wrapper) : (List.length (held g) <= 1)%nat.
Proof. unfold held. destruct (is_null (ctx g)); cbn; lia. Qed.

Section Reinit.

Variable E : Engine.

(** The contexts alive after a call are the one the singleton holds, if they
    were so before it. *)
Lemma init_mtmd_live req (s : state E) o s' t :
  action_init_mtmd E req s = (o, s', t) ->
  live_contexts t (held (g_mtmd_ctx s)) = held (g_mtmd_ctx s').
Proof.
  intros H. apply init_mtmd_cases in H.
  destruct H as [(_ & _ & -> & ->) | (_ & _ & params & r & -> & Hr)]; [reflexivity|].
  rewrite live_contexts_app.
  match goal with
  | |- context [live_contexts ?fp (held ?g)] =>
      assert (Hfree : live_contexts fp (held g) = [])
  end.
  { unfold held. destruct (is_null (ctx (g_mtmd_ctx s))); [reflexivity|].
    cbn. now rewrite N.eqb_refl. }
  rewrite Hfree. cbn [live_contexts].
  destruct r as [p | [what |]].
  - destruct (is_null p) eqn:Hp; destruct Hr as [-> _]; unfold held; cbn [ctx];
      now rewrite Hp.
  - destruct Hr as [-> _]. now rewrite held_cleaned.
  - destruct Hr as [-> _]. now rewrite held_cleaned.
Qed.

End Reinit.

(** An exception that is not a std::exception is not caught by
    [action_init_mtmd]: it leaves the function, and the old context is gone
    all the same. *)
Lemma reinit_unknown_exception_escapes (E : Engine) (req : glue_msg_init_mtmd_req)
    (s : state E) path model params :
  is_ready (g_mtmd_ctx s) = true ->
  In (Ev_mtmd_init_from_file path model params (Thrown unknown_exception))
     (trace_of (action_init_mtmd E req s)) ->
  outcome_of (action_init_mtmd E req s) = Thrown unknown_exception /\
  g_mtmd_ctx (state_of (action_init_mtmd E req s)) = mtmd_context_wrapper_init.
Proof.
  intros Hready Hin.
  destruct (action_init_mtmd E req s) as [[o s'] t] eqn:H.
  unfold trace_of, outcome_of, state_of in *. cbn [fst snd] in *.
  apply init_mtmd_cases in H.
  destruct H as [(_ & _ & _ & ->) | (_ & _ & params' & r' & -> & Hr)];
    [destruct Hin|].
  unfold is_ready in Hready. apply andb_true_iff in Hready.
  destruct Hready as [Hinit Hctx]. apply negb_true_iff in Hctx.
  unfold cleaned in Hr. rewrite Hctx in *. cbn [List.app In] in Hin.
  destruct Hin as [Hin | [Hin | []]]; [discriminate|].
  injection Hin as _ _ _ ->.
  destruct Hr as [-> ->]. auto.
Qed.

(** C10 (amended). Re-initialization is not atomic.  When [initMultimodal]
    is called while an initialized context is held, and the engine then fails
    to build the new context (it returns a null pointer, or an exception is
    thrown), the old context has been destroyed before the attempt and the
    singleton is left uninitialized (null pointer, flag false, not ready):
    the old context is not retained.  The call returns success=false when the
    engine returned a null pointer or threw a std::exception; an exception of
    another type is not caught, and leaves the call without a response. *)
Theorem reinit_failure_loses_context (E : Engine) (req : glue_msg_init_mtmd_req)
    (s : state E) (path : string) (model : ptr) (params : mtmd_context_params)
    (r : outcome ptr) :
  let run := action_init_mtmd E req s in
  is_ready (g_mtmd_ctx s) = true ->
  In (Ev_mtmd_init_from_file path model params r) (trace_of run) ->
  (r = Normal nullptr \/ exists e, r = Thrown e) ->
  trace_of run = [Ev_mtmd_free (ctx (g_mtmd_ctx s));
                  Ev_mtmd_init_from_file path model params r] /\
  g_mtmd_ctx (state_of run) = mtmd_context_wrapper_init /\
  is_ready (g_mtmd_ctx (state_of run)) = false /\
  ((r = Normal nullptr \/ exists what, r = Thrown (std_exception what)) ->
   exists res, outcome_of run = Normal res /\ init_success res = false) /\
  (r = Thrown unknown_exception -> outcome_of run = Thrown unknown_exception).
Proof.
  intros run Hready Hin Hfail. subst run.
  destruct (action_init_mtmd E req s) as [[o s'] t] eqn:H.
  unfold trace_of, outcome_of, state_of in *. cbn [fst snd] in *.
  apply init_mtmd_cases in H.
  destruct H as [(_ & _ & _ & ->) | (_ & _ & params' & r' & -> & Hr)];
    [destruct Hin|].
  unfold is_ready in Hready. apply andb_true_iff in Hready.
  destruct Hready as [Hinit Hctx]. apply negb_true_iff in Hctx.
  unfold cleaned in Hr. rewrite Hctx in *. cbn [List.app In] in Hin |- *.
  destruct Hin as [Hin | [Hin | []]]; [discriminate|].
  injection Hin as <- <- <- <-.
  split; [reflexivity|].
  destruct Hfail as [-> | [[what |] ->]].
  - cbn in Hr. destruct Hr as [Hg ->]. rewrite Hg.
    repeat split; [eexists; split; reflexivity | discriminate].
  - destruct Hr as [Hg ->]. rewrite Hg.
    repeat split; [eexists; split; reflexivity | discriminate].
  - destruct Hr as [Hg ->]. rewrite Hg.
    repeat split.
    intros [Hnull | [what Hstd]]; discriminate.
Qed.

Lemma reinit_failure_loses_context_witness :
  let E := Scripted.engine Scenario.no_init in
  let run := action_init_mtmd E (Scenario.init_req EmptyString)
               (Scripted.ready Scenario.no_init) in
  g_mtmd_ctx (Scripted.ready Scenario.no_init) = {| ctx := 300%N; initialized := true |} /\
  g_mtmd_ctx (state_of run) = mtmd_context_wrapper_init.
Proof.
  intros E run. split; [reflexivity|].
  refine (proj1 (proj2
    (reinit_failure_loses_context E (Scenario.init_req EmptyString)
       (Scripted.ready Scenario.no_init) "mmproj.gguf" 100%N
       {| use_gpu := false; n_threads := 1; verbosity := GGML_LOG_LEVEL_INFO;
          print_timings := true; image_marker := "<__image__>" |}
       (Normal nullptr) eq_refl _ _))).
  - vm_compute. right. left. reflexivity.
  - left. reflexivity.
Defined.

(** C10 as stated fails when the exception thrown is not a std::exception:
    the first call builds a context, the engine throws during the second
    call, and the second call does not return success=false; it returns
    nothing, the exception leaving the handler.  The old context is gone all
    the same. *)
Lemma reinit_exception_may_escape :
  let E := Scripted.engine Scenario.second_init_throws in
  let run1 := action_init_mtmd E (Scenario.init_req EmptyString)
                (Scripted.fresh Scenario.second_init_throws) in
  let run2 := action_init_mtmd E (Scenario.init_req EmptyString) (state_of run1) in
  outcome_of run1 = Normal {| init_success := true; init_error := EmptyString |} /\
  is_ready (g_mtmd_ctx (state_of run1)) = true /\
  (exists path model params,
     In (Ev_mtmd_init_from_file path model params (Thrown unknown_exception))
        (trace_of run2)) /\
  outcome_of run2 = Thrown unknown_exception /\
  ~ (exists res, outcome_of run2 = Normal res /\ init_success res = false) /\
  In (Ev_mtmd_free 300%N) (trace_of run2) /\
  g_mtmd_ctx (state_of run2) = mtmd_context_wrapper_init.
Proof.
  cbv zeta. vm_compute. repeat split; try reflexivity.
  - eexists _, _, _. right. left. reflexivity.
  - intros (res & Hres & _). discriminate Hres.
  - left. reflexivity.
Qed.

(** C7 (amended). After two [initMultimodal] calls in a row with a model
    loaded, the multimodal contexts alive are exactly the one the singleton
    holds: at most one, and exactly one if and only if the second call
    succeeded (none when it failed).  The second call starts by destroying the
    context left by the first, and when it returns a failure it is because the
    engine did not build the new context (it returned a null pointer or threw
    a std::exception), not because of what the first call left. *)
Theorem two_inits_one_context (E : Engine) (req1 req2 : glue_msg_init_mtmd_req)
    (s0 : state E) :
  let run1 := action_init_mtmd E req1 s0 in
  let run2 := action_init_mtmd E req2 (state_of run1) in
  let g1 := g_mtmd_ctx (state_of run1) in
  let g2 := g_mtmd_ctx (state_of run2) in
  is_null (app_model (app s0)) = false ->
  live_contexts (trace_of run1 ++ trace_of run2) (held (g_mtmd_ctx s0)) = held g2 /\
  (List.length (held g2) <= 1)%nat /\
  (is_null (ctx g1) = false ->
   exists rest, trace_of run2 = Ev_mtmd_free (ctx g1) :: rest) /\
  (List.length (held g2) = 1%nat <->
   outcome_of run2 = Normal {| init_success := true; init_error := EmptyString |}) /\
  (forall res, outcome_of run2 = Normal res -> init_success res = false ->
     exists path model params r,
       In (Ev_mtmd_init_from_file path model params r) (trace_of run2) /\
       (r = Normal nullptr \/ exists what, r = Thrown (std_exception what))).
Proof.
  intros run1 run2 g1 g2 Hm. subst g1 g2 run2 run1.
  destruct (action_init_mtmd E req1 s0) as [[o1 s1] t1] eqn:H1.
  unfold trace_of, outcome_of, state_of. cbn [fst snd].
  destruct (action_init_mtmd E req2 s1) as [[o2 s2] t2] eqn:H2.
  cbn [fst snd].
  split; [|split; [apply held_length|]].
  { rewrite live_contexts_app.
    rewrite (init_mtmd_live E _ _ _ _ _ H1). apply (init_mtmd_live E _ _ _ _ _ H2). }
  assert (Hm1 : is_null (app_model (app s1)) = false).
  { apply init_mtmd_cases in H1.
    destruct H1 as [(_ & _ & -> & _) | (_ & -> & _)]; exact Hm. }
  apply init_mtmd_cases in H2.
  destruct H2 as [(Hm' & _) | (_ & _ & params & r & -> & Hr)]; [congruence|].
  split; [|split].
  - intros Hc. rewrite Hc. eexists. reflexivity.
  - unfold held. destruct r as [p | [what |]].
    + destruct (is_null p) eqn:Hp; destruct Hr as [-> ->]; cbn [ctx]; rewrite Hp;
        cbn; split; (discriminate || reflexivity).
    + destruct Hr as [-> ->]. fold (held (cleaned (g_mtmd_ctx s1))).
      rewrite held_cleaned. cbn. split; discriminate.
    + destruct Hr as [-> ->]. fold (held (cleaned (g_mtmd_ctx s1))).
      rewrite held_cleaned. cbn. split; discriminate.
  - intros res Ho Hres.
    exists (mmproj_path req2), (app_model (app s1)), params, r.
    split; [apply in_or_app; right; left; reflexivity|].
    destruct r as [p | [what |]].
    + destruct (is_null p) eqn:Hp; destruct Hr as [_ ->].
      * left. apply N.eqb_eq in Hp. now rewrite Hp.
      * injection Ho as <-. discriminate.
    + right. eauto.
    + destruct Hr as [_ ->]. discriminate.
Qed.

Lemma two_inits_one_context_witness :
  let E := Scripted.engine Scenario.two_inits in
  let run1 := action_init_mtmd E (Scenario.init_req EmptyString)
                (Scripted.fresh Scenario.two_inits) in
  let run2 := action_init_mtmd E (Scenario.init_req EmptyString) (state_of run1) in
  live_contexts (trace_of run1 ++ trace_of run2) [] = [301%N].
Proof.
  intros E run1 run2.
  exact (proj1 (two_inits_one_context E (Scenario.init_req EmptyString)
                  (Scenario.init_req EmptyString)
                  (Scripted.fresh Scenario.two_inits) eq_refl)).
Defined.

(** C7 as stated fails: when the engine cannot build the second context, no
    multimodal context is alive after the two calls. *)
Lemma two_inits_may_leave_no_context :
  let E := Scripted.engine Scenario.second_init_fails in
  let run1 := action_init_mtmd E (Scenario.init_req EmptyString)
                (Scripted.fresh Scenario.second_init_fails) in
  let run2 := action_init_mtmd E (Scenario.init_req EmptyString) (state_of run1) in
  outcome_of run1 = Normal {| init_success := true; init_error := EmptyString |} /\
  live_contexts (trace_of run1) [] = [300%N] /\
  live_contexts (trace_of run1 ++ trace_of run2) [] = [] /\
  List.length (live_contexts (trace_of run1 ++ trace_of run2) []) <> 1%nat.
Proof.
  cbv zeta. repeat split; try reflexivity. vm_compute. discriminate.
Qed.

(** ** The set-up calls of [action_process_image] *)

Lemma find_npos_occurs (s t : string) :
  t <> EmptyString -> (find_npos s t = false <-> occurs t s).
Proof.
  intros Ht. unfold find_npos, occurs.
  destruct (String.index 0 t s) as [m|] eqn:Hidx; split; intros H;
    try reflexivity; try discriminate.
  - exists m. eapply String.index_correct1; eassumption.
  - destruct H as [m Hm]. exfalso.
    apply (String.index_correct3 0 m t s Hidx Ht); [lia | exact Hm].
Qed.

Ltac in_trace Hin :=
  cbn [In] in Hin;
  repeat match type of Hin with
         | _ \/ _ => destruct Hin as [Hin | Hin]
         | False => destruct Hin
         end.

Ltac loop_trace_absurd Hin :=
  match goal with
  | Hg : generate _ _ _ _ _ = (_, _, ?lt) |- _ =>
      match type of Hin with
      | In ?ev lt =>
          apply generate_loop_events in Hg; rewrite Forall_forall in Hg;
          apply Hg in Hin; discriminate Hin
      end
  end.

Section Setup.

Variable E : Engine.

(** The one call of [mtmd_tokenize] gets the prompt with the literal marker
    appended when [find] does not see it, and the bitmap of the request. *)
Lemma process_image_tokenize_call req (s : state E) c txt bitmaps r :
  In (Ev_mtmd_tokenize c txt bitmaps r) (trace_of (action_process_image E req s)) ->
  c = ctx (g_mtmd_ctx s) /\
  txt = {| text := if find_npos (prompt req) image_marker_literal
                   then (prompt req ++ (" " ++ image_marker_literal))%string
                   else prompt req;
           add_special := true; parse_special := true |} /\
  exists bid,
    bitmaps = [{| nx := width req; ny := height req;
                  data := firstn (Z.to_nat (int_mul (int_mul (width req) (height req)) 3))
                            (image_data req);
                  id := bid |}].
Proof.
  destruct (action_process_image E req s) as [[o s'] t] eqn:H.
  unfold trace_of. cbn [snd]. intros Hin.
  unfold action_process_image, process_image_try in H.
  invert_run; simpl_state; rewrite ?app_nil_r in Hin; in_trace Hin;
    try discriminate Hin; try loop_trace_absurd Hin.
  all: injection Hin as <- <- <- <-; repeat split; eexists; reflexivity.
Qed.

(** With the cache-reuse flag set, [llama_kv_cache_clear] is not called. *)
Lemma process_image_reuse_no_clear req (s : state E) lctx r :
  use_cache req = true ->
  ~ In (Ev_llama_kv_cache_clear lctx r) (trace_of (action_process_image E req s)).
Proof.
  destruct (action_process_image E req s) as [[o s'] t] eqn:H.
  unfold trace_of. cbn [snd]. intros Hreuse Hin.
  unfold action_process_image, process_image_try in H.
  invert_run; simpl_state; rewrite ?app_nil_r in Hin; in_trace Hin;
    try discriminate Hin; try loop_trace_absurd Hin.
  all: rewrite Hreuse in *; discriminate.
Qed.

End Setup.

Section Evaluation.

Variable E : Engine.

(** The chunks are evaluated once, at position 0 of sequence 0, after the
    tokenization, the clearing of the cache when the request asks for it, and
    the query of the batch size. *)
Lemma process_image_eval_split req (s : state E) pre c lctx chunks n_past seq_id
    n_batch r post :
  trace_of (action_process_image E req s) =
    pre ++ Ev_mtmd_helper_eval c lctx chunks n_past seq_id n_batch r :: post ->
  n_past = 0 /\ seq_id = 0 /\
  exists tk,
    pre = tk :: (if use_cache req then []
                 else [Ev_llama_kv_cache_clear (app_ctx (app s)) (Normal tt)])
             ++ [Ev_llama_n_batch (app_ctx (app s)) (Normal n_batch)].
Proof.
  destruct (action_process_image E req s) as [[o s'] t] eqn:H.
  unfold trace_of. cbn [snd]. intros Heq.
  unfold action_process_image, process_image_try in H.
  invert_run; simpl_state; rewrite ?app_nil_r in Heq.
  all: try (symmetry in Heq; apply app_cons_not_nil in Heq; destruct Heq).
  all: peel Heq.
  all: try discriminate.
  all: try match goal with
           | Hl : ?lt = _ ++ ?ev :: _, Hg : generate _ _ _ _ _ = (_, _, ?lt) |- _ =>
               exfalso; apply generate_loop_events in Hg;
               rewrite Forall_forall in Hg;
               assert (Hin : In ev lt) by (rewrite Hl; apply in_elt);
               apply Hg in Hin; discriminate Hin
           end.
  all: try (exfalso; eapply app_cons_not_nil; eassumption).
  all: subst.
  all: repeat match goal with
              | x : unit |- _ => destruct x
              end.
  all: match goal with
       | Hc : negb (use_cache ?rq) = _ |- _ =>
           destruct (use_cache rq); try discriminate Hc
       end.
  all: repeat split; eexists; reflexivity.
Qed.

End Evaluation.

(** C2 (amended).  In [processImage], when the cache-reuse flag is false the
    attention cache is cleared before the chunks are evaluated; when the flag
    is true the attention cache is not cleared.  In both cases the chunks are
    evaluated from position zero: the position is a local variable that starts
    at zero in every request, and nothing is carried over from the request
    before. *)
Theorem cache_cleared_unless_reused (E : Engine) (req : glue_msg_process_image_req)
    (s : state E) (pre post : trace) (c lctx : ptr) (chunks : mtmd_input_chunks)
    (n_past seq_id n_batch : Z) (r : outcome Z) :
  trace_of (action_process_image E req s) =
    pre ++ Ev_mtmd_helper_eval c lctx chunks n_past seq_id n_batch r :: post ->
  n_past = 0 /\
  (use_cache req = false ->
   In (Ev_llama_kv_cache_clear (app_ctx (app s)) (Normal tt)) pre) /\
  (use_cache req = true ->
   forall lctx' r', ~ In (Ev_llama_kv_cache_clear lctx' r')
                         (trace_of (action_process_image E req s))).
Proof.
  intros Heq.
  destruct (process_image_eval_split E req s _ _ _ _ _ _ _ _ _ Heq)
    as (Hn & _ & tk & Hpre).
  split; [exact Hn|]. split.
  - intros Hc. rewrite Hpre, Hc. right. left. reflexivity.
  - intros Hc lctx' r'. now apply process_image_reuse_no_clear.
Qed.

Lemma cache_cleared_unless_reused_witness :
  let E := Scripted.engine Scenario.two_tokens in
  let run := action_process_image E (Scenario.describe false)
               (Scripted.ready Scenario.two_tokens) in
  In (Ev_llama_kv_cache_clear 200%N (Normal tt)) (firstn 3 (trace_of run)).
Proof.
  intros E run.
  refine (proj1 (proj2
    (cache_cleared_unless_reused E (Scenario.describe false)
       (Scripted.ready Scenario.two_tokens)
       (firstn 3 (trace_of run)) (skipn 4 (trace_of run))
       300%N 200%N Scenario.chunks 0 0 512 (Normal 0) _)) eq_refl).
  vm_compute. reflexivity.
Defined.

(** C2 as stated fails when the flag is true: the request before left the
    cursor at 9 (seven chunk positions and two decoded tokens), and the
    next request, which reuses the cache, evaluates its chunks at position 0
    all the same (the cache itself is not cleared). *)
Lemma reused_cache_restarts_at_zero :
  let E := Scripted.engine Scenario.two_tokens in
  let run1 := action_process_image E (Scenario.describe false)
                (Scripted.ready Scenario.two_tokens) in
  let run2 := action_process_image E (Scenario.describe true) (state_of run1) in
  outcome_of run1 =
    Normal {| success := true; error := EmptyString; result := "<5><6>" |} /\
  In (Ev_llama_decode 200%N
        [{| b_token := 6; b_pos := 8; b_seq_ids := [0]; b_logits := true |}]
        (Normal 0)) (trace_of run1) /\
  cursor_after (trace_of run1) 0 = 9 /\
  filter is_kv_cache_clear (trace_of run2) = [] /\
  filter is_eval (trace_of run2) =
    [Ev_mtmd_helper_eval 300%N 200%N Scenario.chunks 0 0 512 (Normal 0)].
Proof.
  vm_compute. repeat split; try reflexivity.
  do 15 right. left. reflexivity.
Qed.

(** C6 (amended).  For every prompt passed to [processImage]: if the literal
    marker "<__image__>" does not occur in the prompt, the text given to the
    tokenizer is the prompt followed by a space and "<__image__>"; if it
    occurs, the text is the prompt unchanged.  The marker configured with
    [initMultimodal] plays no part in this. *)
Theorem marker_appended_when_default_absent (E : Engine)
    (req : glue_msg_process_image_req) (s : state E)
    (c : ptr) (txt : mtmd_input_text) (bitmaps : list mtmd_bitmap)
    (r : outcome (Z * mtmd_input_chunks)) :
  In (Ev_mtmd_tokenize c txt bitmaps r) (trace_of (action_process_image E req s)) ->
  (occurs "<__image__>" (prompt req) -> text txt = prompt req) /\
  (~ occurs "<__image__>" (prompt req) ->
   text txt = (prompt req ++ " <__image__>")%string).
Proof.
  intros Hin. apply process_image_tokenize_call in Hin.
  destruct Hin as (_ & -> & _). cbn [text].
  assert (Hspec := find_npos_occurs (prompt req) image_marker_literal).
  destruct (find_npos (prompt req) image_marker_literal); split; intros Hocc.
  - apply Hspec in Hocc; [discriminate | discriminate].
  - reflexivity.
  - reflexivity.
  - exfalso. apply Hocc. apply Hspec; [discriminate | reflexivity].
Qed.

Lemma marker_appended_when_default_absent_witness :
  let E := Scripted.engine Scenario.two_tokens in
  let run := action_process_image E (Scenario.describe false)
               (Scripted.ready Scenario.two_tokens) in
  In (Ev_mtmd_tokenize 300%N
        {| text := "describe <__image__>"; add_special := true;
           parse_special := true |}
        [{| nx := 1; ny := 1; data := Scenario.pixel; id := "img_3" |}]
        (Normal (0, Scenario.chunks))) (trace_of run) /\
  "describe <__image__>" = ("describe" ++ " <__image__>")%string.
Proof.
  intros E run.
  assert (Hin : In (Ev_mtmd_tokenize 300%N
        {| text := "describe <__image__>"; add_special := true;
           parse_special := true |}
        [{| nx := 1; ny := 1; data := Scenario.pixel; id := "img_3" |}]
        (Normal (0, Scenario.chunks))) (trace_of run))
    by (vm_compute; left; reflexivity).
  split; [exact Hin|].
  apply (proj2 (marker_appended_when_default_absent E (Scenario.describe false)
                  (Scripted.ready Scenario.two_tokens) _ _ _ _ Hin)).
  intros [m Hm].
  do 9 (destruct m as [|m]; [vm_compute in Hm; discriminate Hm|]).
  vm_compute in Hm. destruct m; discriminate Hm.
Defined.

(** C6 as stated fails for a configured marker other than "<__image__>":
    after an [initMultimodal] that configures "<img>", a prompt that contains
    "<img>" is not tokenized unchanged, and what is appended is "<__image__>",
    not the configured marker. *)
Lemma configured_marker_is_ignored :
  let E := Scripted.engine Scenario.two_tokens in
  let req := {| image_data := Scenario.pixel; data_size := 3; width := 1;
                height := 1; prompt := "describe <img>"; use_cache := false |} in
  let served := serve E [InitMultimodal (Scenario.init_req "<img>"); ProcessImage req]
                  (Scripted.fresh Scenario.two_tokens) in
  firstn 2 (trace_of served) =
    [Ev_mtmd_init_from_file "mmproj.gguf" 100%N
       {| use_gpu := false; n_threads := 1; verbosity := GGML_LOG_LEVEL_INFO;
          print_timings := true; image_marker := "<img>" |} (Normal 300%N);
     Ev_mtmd_tokenize 300%N
       {| text := "describe <img> <__image__>"; add_special := true;
          parse_special := true |}
       [{| nx := 1; ny := 1; data := Scenario.pixel; id := "img_3" |}]
       (Normal (0, Scenario.chunks))] /\
  String.substring 9 5 (prompt req) = "<img>" /\
  "describe <img> <__image__>" <> prompt req.
Proof. cbv zeta. repeat split; try (vm_compute; reflexivity). discriminate. Qed.

(** ** The checks on the image *)

Lemma wrap32_small (z : Z) : int_range z -> wrap32 z = z.
Proof.
  unfold int_range, INT_MIN, INT_MAX, wrap32. intros Hz.
  rewrite Z.mod_small; lia.
Qed.


Lemma not_ready_test (g : mtmd_context_wrapper) :
  is_ready g = true -> negb (initialized g) || is_null (ctx g) = false.
Proof.
  unfold is_ready. destruct (initialized g), (is_null (ctx g)); cbn; congruence.
Qed.

Section ImageChecks.

Variable E : Engine.
Variable req : glue_msg_process_image_req.
Variable s : state E.

Hypothesis model_loaded : is_null (app_model (app s)) = false.
Hypothesis context_present : is_null (app_ctx (app s)) = false.
Hypothesis multimodal_ready : is_ready (g_mtmd_ctx s) = true.



(** When the wrapped byte count is negative, [resize] throws and the
    response carries the message of the exception. *)
Lemma negative_byte_count_throws :
  image_data req <> [] -> 0 < width req -> 0 < height req ->
  int_mul (int_mul (width req) (height req)) 3 < 0 ->
  action_process_image E req s =
    (Normal {| success := false;
               error := ("Exception: " ++ length_error_what E)%string;
               result := EmptyString |}, s, []).
Proof.
  intros Hd Hw Hh Hneg.
  unfold action_process_image, bind, get_app, get_g, ret.
  cbv beta iota. rewrite model_loaded, context_present. cbn [orb]. cbv beta iota.
  rewrite (not_ready_test _ multimodal_ready). cbv beta iota.
  assert (Htest : (List.length (image_data req) =? 0)%nat || (width req <=? 0)
                  || (height req <=? 0) = false).
  { destruct (image_data req); [congruence|].
    cbn [List.length Nat.eqb orb].
    apply orb_false_iff. split; apply Z.leb_gt; assumption. }
  rewrite Htest.
  unfold try_catch, process_image_try, vector_resize, bind, get_app, get_g,
    get_world, ret, throw.
  cbv beta iota zeta.
  apply Z.ltb_lt in Hneg. rewrite Hneg. reflexivity.
Qed.


(** When the bitmap is allocated (a bitmap of no bytes needs no allocation)
    and the size check passes, the tokenizer is the first thing called, on a
    bitmap of the declared dimensions that holds the first bytes of the
    buffer, as many as the wrapped byte count. *)
Lemma size_check_passed_calls_tokenizer :
  image_data req <> [] -> 0 < width req -> 0 < height req ->
  0 <= int_mul (int_mul (width req) (height req)) 3
    <= Z.of_nat (List.length (image_data req)) ->
  int_mul (int_mul (width req) (height req)) 3 = 0 \/
  E_operator_new E (int_mul (int_mul (width req) (height req)) 3) (world s) = true ->
  exists txt bid r rest,
    trace_of (action_process_image E req s) =
      Ev_mtmd_tokenize (ctx (g_mtmd_ctx s)) txt
        [{| nx := width req; ny := height req;
            data := firstn (Z.to_nat (int_mul (int_mul (width req) (height req)) 3))
                      (image_data req);
            id := bid |}] r :: rest.
Proof.
  intros Hd Hw Hh [Hlo Hhi] Halloc.
  destruct (action_process_image E req s) as [[o s'] t] eqn:H.
  unfold trace_of. cbn [snd].
  unfold action_process_image, process_image_try in H.
  pose proof (not_ready_test _ multimodal_ready) as Hnr.
  assert (Htest : (List.length (image_data req) =? 0)%nat || (width req <=? 0)
                  || (height req <=? 0) = false).
  { destruct (image_data req); [congruence|].
    cbn [List.length Nat.eqb orb].
    apply orb_false_iff. split; apply Z.leb_gt; assumption. }
  invert_run; simpl_state.
  all: try congruence.
  all: try match goal with
           | Hb : is_null _ || is_null _ = true |- _ =>
               rewrite model_loaded, context_present in Hb; discriminate Hb
           | Hb : negb _ || is_null _ = true |- _ =>
               rewrite Hnr in Hb; discriminate Hb
           | Hb : _ || _ || _ = true |- _ =>
               rewrite Htest in Hb; discriminate Hb
           | Hb : (_ <? 0) = true |- _ => apply Z.ltb_lt in Hb; lia
           | Hb : (0 <? _) && negb _ = true |- _ =>
               apply andb_true_iff in Hb; destruct Hb as [Hpos Hno];
               apply Z.ltb_lt in Hpos; apply negb_true_iff in Hno;
               destruct Halloc as [Hz | Hyes]; [lia | congruence]
           | Hb : (_ >=? _) = false |- _ =>
               rewrite Z.geb_leb in Hb; apply Z.leb_gt in Hb; lia
           end.
  all: eexists _, _, _, _; reflexivity.
Qed.


(** The size-mismatch response comes from the size check only: a run that
    returns it made no engine call, and the comparison of line 152 was false. *)
Lemma size_mismatch_only_from_check :
  outcome_of (action_process_image E req s) = Normal (failure ImageSizeMismatch) ->
  (Z.of_nat (List.length (image_data req)) >=?
   int_mul (int_mul (width req) (height req)) 3) = false.
Proof.
  destruct (action_process_image E req s) as [[o s'] t] eqn:H.
  unfold outcome_of. cbn [fst].
  unfold action_process_image, process_image_try in H.
  invert_run; simpl_state; intros Ho; try reflexivity;
    try (cbn in Ho; discriminate Ho).
  all: match goal with
       | Hg : generate _ _ _ _ _ = _ |- _ =>
           apply generate_return in Hg; subst; discriminate Ho
       end.
Qed.

End ImageChecks.

(** C3, at dimensions whose byte count overflows an [int].  With width 65536
    and height 65536 the product [req.width * req.height * 3] wraps around to
    0: a one-byte buffer, far shorter than width*height*3, passes the size
    check; the response is not the size-mismatch failure, and the tokenizer
    is called with a 65536 x 65536 bitmap that holds no pixel data. *)
Theorem overflowing_dimensions_pass_size_check (E : Engine) (s : state E)
    (b : Byte.byte) (p : string) (reuse : bool) :
  let req := {| image_data := [b]; data_size := 1; width := 65536; height := 65536;
                prompt := p; use_cache := reuse |} in
  let run := action_process_image E req s in
  is_null (app_model (app s)) = false ->
  is_null (app_ctx (app s)) = false ->
  is_ready (g_mtmd_ctx s) = true ->
  Z.of_nat (List.length (image_data req)) < width req * height req * 3 /\
  outcome_of run <> Normal (failure ImageSizeMismatch) /\
  exists txt bid r rest,
    trace_of run =
      Ev_mtmd_tokenize (ctx (g_mtmd_ctx s)) txt
        [{| nx := 65536; ny := 65536; data := []; id := bid |}] r :: rest.
Proof.
  intros req run Hm Hc Hready. split; [cbn; lia|]. split.
  - intros Ho. apply size_mismatch_only_from_check in Ho. discriminate Ho.
  - apply (size_check_passed_calls_tokenizer E req s Hm Hc Hready);
      [discriminate | reflexivity | reflexivity | split; cbn; lia
      | left; reflexivity].
Qed.

Lemma overflowing_dimensions_pass_size_check_witness :
  let E := Scripted.engine Scenario.two_tokens in
  let req := {| image_data := [Byte.x00]; data_size := 1; width := 65536;
                height := 65536; prompt := "describe"; use_cache := false |} in
  let run := action_process_image E req (Scripted.ready Scenario.two_tokens) in
  outcome_of run = Normal {| success := true; error := EmptyString; result := "<5><6>" |} /\
  outcome_of run <> Normal (failure ImageSizeMismatch).
Proof.
  intros E req run. split; [vm_compute; reflexivity|].
  exact (proj1 (proj2
    (overflowing_dimensions_pass_size_check E (Scripted.ready Scenario.two_tokens)
       Byte.x00 "describe" false eq_refl eq_refl eq_refl))).
Defined.

(** * Further properties of the handlers *)

(** ** [action_init_mtmd] *)

(** X1. Without a text model, [initMultimodal] answers with the
    model-not-loaded message before touching anything: no engine call is
    made and the state is unchanged, so a context that was held and ready
    stays held and ready. *)
Theorem init_without_model_changes_nothing (E : Engine)
    (req : glue_msg_init_mtmd_req) (s : state E) :
  is_null (app_model (app s)) = true ->
  action_init_mtmd E req s =
    (Normal {| init_success := false;
               init_error := "Text model not loaded. Call loadModel() first." |},
     s, []).
Proof.
  intros Hm. destruct (action_init_mtmd E req s) as [[o s'] t] eqn:H.
  apply init_mtmd_cases in H.
  destruct H as [(_ & -> & -> & ->) | (Hm' & _)]; [reflexivity | congruence].
Qed.

Lemma init_without_model_changes_nothing_witness :
  let E := Scripted.engine Scenario.two_tokens in
  let s := Build_state E {| app_model := nullptr; app_ctx := 200%N;
                            app_ctx_sampling := nullptr; app_batch := [] |}
             {| ctx := 300%N; initialized := true |} Scripted.start in
  action_init_mtmd E (Scenario.init_req EmptyString) s =
    (Normal {| init_success := false;
               init_error := "Text model not loaded. Call loadModel() first." |},
     s, []).
Proof.
  intros E s.
  apply (init_without_model_changes_nothing E (Scenario.init_req EmptyString) s).
  reflexivity.
Defined.

(** X2. The configuration [initMultimodal] hands to the engine: the path and
    the GPU flag of the request, the loaded model, a thread count that is the
    requested one when positive and 1 otherwise (so never below 1), timings
    on, and the requested marker unless it is empty, in which case the
    engine's default marker is kept. *)
Theorem init_engine_configuration (E : Engine) (req : glue_msg_init_mtmd_req)
    (s : state E) (path : string) (model : ptr) (params : mtmd_context_params)
    (r : outcome ptr) :
  In (Ev_mtmd_init_from_file path model params r)
     (trace_of (action_init_mtmd E req s)) ->
  path = mmproj_path req /\
  model = app_model (app s) /\
  use_gpu params = req_use_gpu req /\
  1 <= n_threads params /\
  (0 < req_n_threads req -> n_threads params = req_n_threads req) /\
  (req_n_threads req <= 0 -> n_threads params = 1) /\
  print_timings params = true /\
  (req_image_marker req = EmptyString ->
   image_marker params = default_image_marker E) /\
  (req_image_marker req <> EmptyString ->
   image_marker params = req_image_marker req).
Proof.
  destruct (action_init_mtmd E req s) as [[o s'] t] eqn:H.
  unfold trace_of. cbn [snd]. intros Hin.
  unfold action_init_mtmd in H.
  assert (Hthreads : forall n,
    1 <= (if n >? 0 then n else 1) /\
    (0 < n -> (if n >? 0 then n else 1) = n) /\
    (n <= 0 -> (if n >? 0 then n else 1) = 1)).
  { intros n. destruct (Z.gtb_spec n 0); repeat split; lia. }
  assert (Hmarker : forall m d : string,
    (m = EmptyString -> (if (String.length m =? 0)%nat then d else m) = d) /\
    (m <> EmptyString -> (if (String.length m =? 0)%nat then d else m) = m)).
  { intros m d. destruct m; cbn; split; congruence. }
  invert_run; simpl_state; in_trace Hin; try discriminate Hin.
  all: injection Hin as <- <- <- <-; cbn [use_gpu n_threads print_timings image_marker].
  all: destruct (Hthreads (req_n_threads req)) as (? & ? & ?).
  all: destruct (Hmarker (req_image_marker req) (default_image_marker E)) as (? & ?).
  all: repeat split; assumption.
Qed.

Lemma init_engine_configuration_witness :
  let E := Scripted.engine Scenario.two_tokens in
  let params := {| use_gpu := false; n_threads := 1; verbosity := GGML_LOG_LEVEL_INFO;
                   print_timings := true; image_marker := "<__image__>" |} in
  req_n_threads (Scenario.init_req EmptyString) = 0 /\ n_threads params = 1.
Proof.
  intros E params. split; [reflexivity|].
  refine (proj1 (proj2 (proj2 (proj2 (proj2 (proj2
    (init_engine_configuration E (Scenario.init_req EmptyString)
       (Scripted.fresh Scenario.two_tokens) "mmproj.gguf" 100%N params
       (Normal 300%N) _)))))) _).
  - vm_compute. left. reflexivity.
  - vm_compute. discriminate.
Defined.

Lemma is_ready_cleaned (g : mtmd_context_wrapper) : is_ready (cleaned g) = false.
Proof.
  unfold is_ready, cleaned. destruct (is_null (ctx g)) eqn:Hc; [|reflexivity].
  rewrite Hc. apply andb_false_r.
Qed.

(** X3. With a model loaded, the response of [initMultimodal] tells the state
    it leaves: success=true exactly when the multimodal context is ready
    afterwards.  A success carries an empty error, a failure a non-empty
    one. *)
Theorem init_success_iff_ready (E : Engine) (req : glue_msg_init_mtmd_req)
    (s : state E) :
  let run := action_init_mtmd E req s in
  is_null (app_model (app s)) = false ->
  ((exists res, outcome_of run = Normal res /\ init_success res = true) <->
   is_ready (g_mtmd_ctx (state_of run)) = true) /\
  (forall res, outcome_of run = Normal res ->
     (init_success res = true -> init_error res = EmptyString) /\
     (init_success res = false -> init_error res <> EmptyString)).
Proof.
  intros run Hm. subst run.
  destruct (action_init_mtmd E req s) as [[o s'] t] eqn:H.
  unfold outcome_of, state_of. cbn [fst snd].
  apply init_mtmd_cases in H.
  destruct H as [(Hm' & _) | (_ & _ & params & r & _ & Hr)]; [congruence|].
  destruct r as [p | [what |]].
  - destruct (is_null p) eqn:Hp; destruct Hr as [Hg ->]; rewrite Hg;
      unfold is_ready; cbn [ctx initialized]; rewrite Hp.
    + split.
      * split; [intros (res & Ho & Hs); injection Ho as <-; discriminate Hs|].
        rewrite andb_false_r. discriminate.
      * intros res Ho. injection Ho as <-. split; discriminate.
    + split.
      * split; [reflexivity | intros _; eexists; split; reflexivity].
      * intros res Ho. injection Ho as <-. split; [reflexivity | discriminate].
  - destruct Hr as [Hg ->]. rewrite Hg, is_ready_cleaned. split.
    + split; [intros (res & Ho & Hs); injection Ho as <-; discriminate Hs
             | discriminate].
    + intros res Ho. injection Ho as <-. split; discriminate.
  - destruct Hr as [Hg ->]. rewrite Hg, is_ready_cleaned. split.
    + split; [intros (res & Ho & _); discriminate Ho | discriminate].
    + intros res Ho. discriminate Ho.
Qed.

Lemma init_success_iff_ready_witness :
  let E := Scripted.engine Scenario.two_tokens in
  let run := action_init_mtmd E (Scenario.init_req EmptyString)
               (Scripted.fresh Scenario.two_tokens) in
  is_ready (g_mtmd_ctx (state_of run)) = true.
Proof.
  intros E run.
  apply (proj1 (proj1 (init_success_iff_ready E (Scenario.init_req EmptyString)
                         (Scripted.fresh Scenario.two_tokens) eq_refl))).
  eexists. split; vm_compute; reflexivity.
Defined.

(** X4. An exception that is not a std::exception, thrown while the engine
    builds the context, is not caught by [action_init_mtmd]: the call gives
    no response, and the singleton is left not ready, holding no context
    (whatever it held before has been destroyed). *)
Theorem init_unknown_exception_not_caught (E : Engine)
    (req : glue_msg_init_mtmd_req) (s : state E) (path : string) (model : ptr)
    (params : mtmd_context_params) :
  let run := action_init_mtmd E req s in
  In (Ev_mtmd_init_from_file path model params (Thrown unknown_exception))
     (trace_of run) ->
  outcome_of run = Thrown unknown_exception /\
  g_mtmd_ctx (state_of run) = cleaned (g_mtmd_ctx s) /\
  held (g_mtmd_ctx (state_of run)) = [] /\
  is_ready (g_mtmd_ctx (state_of run)) = false.
Proof.
  intros run Hin. subst run.
  destruct (action_init_mtmd E req s) as [[o s'] t] eqn:H.
  unfold trace_of, outcome_of, state_of in *. cbn [fst snd] in *.
  apply init_mtmd_cases in H.
  destruct H as [(_ & _ & _ & ->) | (_ & _ & params' & r' & -> & Hr)];
    [destruct Hin|].
  apply in_app_or in Hin. destruct Hin as [Hin | [Hin | []]].
  - destruct (is_null (ctx (g_mtmd_ctx s))); [destruct Hin|].
    destruct Hin as [Hin | []]. discriminate Hin.
  - injection Hin as _ _ _ ->. destruct Hr as [-> ->].
    rewrite held_cleaned, is_ready_cleaned. auto.
Qed.

Lemma init_unknown_exception_not_caught_witness :
  let sc := Scenario.script [Thrown unknown_exception] [] 2 [] in
  let run := action_init_mtmd (Scripted.engine sc) (Scenario.init_req EmptyString)
               (Scripted.ready sc) in
  outcome_of run = Thrown unknown_exception.
Proof.
  intros sc run.
  refine (proj1 (init_unknown_exception_not_caught (Scripted.engine sc)
            (Scenario.init_req EmptyString) (Scripted.ready sc) "mmproj.gguf" 100%N
            {| use_gpu := false; n_threads := 1; verbosity := GGML_LOG_LEVEL_INFO;
               print_timings := true; image_marker := "<__image__>" |} _)).
  vm_compute. right. left. reflexivity.
Defined.

(** ** Invariants over sequences of requests *)

Section Histories.

Variable E : Engine.

Lemma init_mtmd_flag_agrees req (s : state E) o s' t :
  action_init_mtmd E req s = (o, s', t) ->
  flag_agrees (g_mtmd_ctx s) = true -> flag_agrees (g_mtmd_ctx s') = true.
Proof.
  intros H Hwf. apply init_mtmd_cases in H.
  destruct H as [(_ & _ & -> & _) | (_ & _ & params & r & _ & Hr)]; [exact Hwf|].
  assert (Hcl : cleaned (g_mtmd_ctx s) =
                {| ctx := ctx (cleaned (g_mtmd_ctx s)); initialized := false |}
                /\ is_null (ctx (cleaned (g_mtmd_ctx s))) = true).
  { unfold cleaned, flag_agrees in *.
    destruct (g_mtmd_ctx s) as [c i]. cbn in *.
    destruct (is_null c) eqn:Hc; cbn; [|auto].
    rewrite Hc. destruct i; cbn in Hwf; try discriminate. auto. }
  destruct Hcl as [Hcl Hnull].
  unfold flag_agrees.
  destruct r as [p | [what |]].
  - destruct (is_null p) eqn:Hp; destruct Hr as [-> _]; cbn [ctx initialized];
      rewrite Hp; [rewrite Hcl|]; reflexivity.
  - destruct Hr as [-> _]. rewrite Hcl. cbn [ctx initialized]. now rewrite Hnull.
  - destruct Hr as [-> _]. rewrite Hcl. cbn [ctx initialized]. now rewrite Hnull.
Qed.

Lemma serve_flag_agrees : forall rqs (s : state E),
  flag_agrees (g_mtmd_ctx s) = true ->
  flag_agrees (g_mtmd_ctx (state_of (serve E rqs s))) = true.
Proof.
  induction rqs as [|rq rqs IH]; intros s Hwf; [exact Hwf|].
  cbn [serve]. unfold handle.
  destruct rq as [req | req].
  - destruct (action_init_mtmd E req s) as [[o s1] t1] eqn:H1.
    specialize (IH s1). destruct (serve E rqs s1) as [[rs s2] t2].
    unfold state_of in *. cbn [fst snd] in *.
    apply IH. eapply init_mtmd_flag_agrees; eassumption.
  - destruct (action_process_image E req s) as [[o s1] t1] eqn:H1.
    specialize (IH s1). destruct (serve E rqs s1) as [[rs s2] t2].
    unfold state_of in *. cbn [fst snd] in *.
    apply IH. apply process_image_frame in H1. destruct H1 as [-> _]. exact Hwf.
Qed.

End Histories.

(** X5. The two fields of the singleton never disagree: starting from a
    singleton whose flag says whether its pointer is set (as the constructor
    leaves it), after any sequence of [initMultimodal] and [processImage]
    requests the flag is set exactly when the pointer is non-null, so the
    readiness test of [processImage] amounts to the flag alone. *)
Theorem flag_and_pointer_agree (E : Engine) (history : list request)
    (s0 : state E) :
  let g := g_mtmd_ctx (state_of (serve E history s0)) in
  flag_agrees (g_mtmd_ctx s0) = true ->
  initialized g = negb (is_null (ctx g)) /\ is_ready g = initialized g.
Proof.
  intros g Hwf.
  pose proof (serve_flag_agrees E history s0 Hwf) as H. fold g in H.
  clearbody g. unfold flag_agrees, is_ready in *.
  destruct (initialized g), (is_null (ctx g)); cbn in *; try discriminate; auto.
Qed.

Lemma flag_and_pointer_agree_witness :
  let E := Scripted.engine Scenario.second_init_fails in
  let g := g_mtmd_ctx (state_of (serve E
             [InitMultimodal (Scenario.init_req EmptyString);
              ProcessImage (Scenario.describe false);
              InitMultimodal (Scenario.init_req EmptyString)]
             (Scripted.fresh Scenario.second_init_fails))) in
  initialized g = negb (is_null (ctx g)) /\ is_ready g = initialized g.
Proof.
  intros E g.
  apply (flag_and_pointer_agree E
           [InitMultimodal (Scenario.init_req EmptyString);
            ProcessImage (Scenario.describe false);
            InitMultimodal (Scenario.init_req EmptyString)]
           (Scripted.fresh Scenario.second_init_fails)).
  reflexivity.
Defined.

(** ** Lifetime of the multimodal context *)

Lemma context_safe_app (t1 t2 : trace) (live : list ptr) :
  context_safe (t1 ++ t2) live =
  context_safe t1 live && context_safe t2 (live_contexts t1 live).
Proof.
  revert live. induction t1 as [|ev t1 IH]; intros live; [reflexivity|].
  destruct ev; cbn [List.app context_safe live_contexts];
    try (rewrite IH, ?andb_assoc; reflexivity).
  destruct r; apply IH.
Qed.

Lemma loop_event_uses_only (c : ptr) (ev : event) :
  loop_event ev = true -> uses_only c ev = true.
Proof. destruct ev; cbn; congruence. Qed.

Lemma uses_only_safe (c : ptr) : forall (t : trace) (live : list ptr),
  Forall (fun ev => uses_only c ev = true) t ->
  mem_ptr c live = true ->
  context_safe t live = true /\ live_contexts t live = live.
Proof.
  induction t as [|ev t IH]; intros live Hall Hmem; [split; reflexivity|].
  inversion Hall as [|? ? Hev Ht]; subst.
  destruct (IH live Ht Hmem) as [Hs Hl].
  destruct ev; cbn in Hev; try discriminate; cbn [context_safe live_contexts];
    auto.
  - apply N.eqb_eq in Hev. subst c0. rewrite Hmem, Hs. auto.
  - apply N.eqb_eq in Hev. subst c0. rewrite Hmem, Hs. auto.
Qed.

Section Lifetime.

Variable E : Engine.

(** [action_process_image] creates and destroys no multimodal context, and
    uses none but the one the singleton holds, which is then non-null. *)
Lemma process_image_uses_only req (s : state E) o s' t :
  action_process_image E req s = (o, s', t) ->
  t = [] \/
  (is_null (ctx (g_mtmd_ctx s)) = false /\
   Forall (fun ev => uses_only (ctx (g_mtmd_ctx s)) ev = true) t).
Proof.
  intros H. unfold action_process_image, process_image_try in H.
  invert_run; simpl_state; rewrite ?app_nil_r.
  all: first
    [ left; reflexivity
    | right; split;
      [ match goal with
        | Hb : negb _ || is_null _ = false |- _ =>
            apply orb_false_iff in Hb; exact (proj2 Hb)
        end
      | repeat (apply Forall_cons; [cbn; rewrite ?N.eqb_refl; reflexivity|]);
        first
          [ apply Forall_nil
          | match goal with
            | Hg : generate _ _ _ _ _ = _ |- _ =>
                apply generate_loop_events in Hg;
                eapply Forall_impl; [|exact Hg];
                intros ev Hev; now apply loop_event_uses_only
            end ] ] ].
Qed.

Lemma process_image_safe req (s : state E) o s' t :
  action_process_image E req s = (o, s', t) ->
  context_safe t (held (g_mtmd_ctx s)) = true /\
  live_contexts t (held (g_mtmd_ctx s)) = held (g_mtmd_ctx s').
Proof.
  intros H. pose proof (process_image_frame E _ _ _ _ _ H) as [Hg _].
  rewrite Hg. apply process_image_uses_only in H.
  destruct H as [-> | [Hc Hall]]; [split; reflexivity|].
  apply (uses_only_safe _ _ _ Hall).
  unfold held. rewrite Hc. cbn. now rewrite N.eqb_refl.
Qed.

Lemma init_mtmd_safe req (s : state E) o s' t :
  action_init_mtmd E req s = (o, s', t) ->
  context_safe t (held (g_mtmd_ctx s)) = true.
Proof.
  intros H. apply init_mtmd_cases in H.
  destruct H as [(_ & _ & _ & ->) | (_ & _ & params & r & -> & _)]; [reflexivity|].
  unfold held. destruct (is_null (ctx (g_mtmd_ctx s))); cbn.
  - destruct r; reflexivity.
  - rewrite N.eqb_refl. destruct r; reflexivity.
Qed.

Lemma serve_safe : forall rqs (s : state E),
  context_safe (trace_of (serve E rqs s)) (held (g_mtmd_ctx s)) = true /\
  live_contexts (trace_of (serve E rqs s)) (held (g_mtmd_ctx s)) =
    held (g_mtmd_ctx (state_of (serve E rqs s))).
Proof.
  induction rqs as [|rq rqs IH]; intros s; [split; reflexivity|].
  cbn [serve]. unfold handle.
  destruct rq as [req | req].
  - destruct (action_init_mtmd E req s) as [[o s1] t1] eqn:H1.
    specialize (IH s1). destruct (serve E rqs s1) as [[rs s2] t2].
    unfold state_of, trace_of in *. cbn [fst snd] in *.
    rewrite context_safe_app, live_contexts_app.
    rewrite (init_mtmd_safe _ _ _ _ _ H1), (init_mtmd_live E _ _ _ _ _ H1).
    exact IH.
  - destruct (action_process_image E req s) as [[o s1] t1] eqn:H1.
    specialize (IH s1). destruct (serve E rqs s1) as [[rs s2] t2].
    unfold state_of, trace_of in *. cbn [fst snd] in *.
    rewrite context_safe_app, live_contexts_app.
    destruct (process_image_safe _ _ _ _ _ H1) as [-> ->].
    exact IH.
Qed.

(** The destructor frees the context held, if any, and resets both fields. *)
Lemma destroy_cases (s : state E) :
  mtmd_context_wrapper_destroy E s =
    (Normal tt,
     {| app := app s; g_mtmd_ctx := mtmd_context_wrapper_init;
        world := if is_null (ctx (g_mtmd_ctx s)) then world s
                 else E_mtmd_free E (ctx (g_mtmd_ctx s)) (world s) |},
     if is_null (ctx (g_mtmd_ctx s)) then []
     else [Ev_mtmd_free (ctx (g_mtmd_ctx s))]).
Proof.
  unfold mtmd_context_wrapper_destroy, bind, get_g, put_g, ret, mtmd_free.
  cbv beta iota.
  destruct (is_null (ctx (g_mtmd_ctx s))) eqn:Hc; cbn.
  - apply N.eqb_eq in Hc. unfold mtmd_context_wrapper_init.
    rewrite <- Hc. reflexivity.
  - reflexivity.
Qed.

End Lifetime.

(** X6. No multimodal context is used after it was destroyed, and none is
    destroyed twice: over any sequence of [initMultimodal] and [processImage]
    requests, every context passed to [mtmd_free], [mtmd_tokenize] or
    [mtmd_helper_eval] is alive at the time of the call (the contexts alive at
    the start being the one the singleton holds). *)
Theorem contexts_never_misused (E : Engine) (history : list request)
    (s0 : state E) :
  context_safe (trace_of (serve E history s0)) (held (g_mtmd_ctx s0)) = true.
Proof. apply serve_safe. Qed.

(** X7. No multimodal context leaks: after any sequence of requests, the
    contexts alive are the one the singleton holds and nothing else, so at
    most one. *)
Theorem no_context_leaks (E : Engine) (history : list request) (s0 : state E) :
  let run := serve E history s0 in
  live_contexts (trace_of run) (held (g_mtmd_ctx s0)) =
    held (g_mtmd_ctx (state_of run)) /\
  (List.length (live_contexts (trace_of run) (held (g_mtmd_ctx s0))) <= 1)%nat.
Proof.
  intros run. subst run.
  destruct (serve_safe E history s0) as [_ Hl]. rewrite Hl.
  split; [reflexivity | apply held_length].
Qed.

(** X8. The destructor of the singleton releases what is left: after any
    sequence of requests followed by the destructor no multimodal context is
    alive, the singleton is back to its constructed state, the destructor
    frees only a context that is alive, and running it again calls nothing. *)
Theorem teardown_frees_context (E : Engine) (history : list request)
    (s0 : state E) :
  let run := serve E history s0 in
  let down := mtmd_context_wrapper_destroy E (state_of run) in
  live_contexts (trace_of run ++ trace_of down) (held (g_mtmd_ctx s0)) = [] /\
  context_safe (trace_of run ++ trace_of down) (held (g_mtmd_ctx s0)) = true /\
  g_mtmd_ctx (state_of down) = mtmd_context_wrapper_init /\
  trace_of (mtmd_context_wrapper_destroy E (state_of down)) = [].
Proof.
  intros run down. subst down.
  destruct (serve_safe E history s0) as [Hs Hl]. fold run in Hs, Hl.
  rewrite live_contexts_app, context_safe_app, Hs, Hl.
  rewrite !destroy_cases. unfold trace_of, state_of. cbn [fst snd g_mtmd_ctx].
  unfold held.
  destruct (is_null (ctx (g_mtmd_ctx (snd (fst run))))); cbn;
    rewrite ?N.eqb_refl; auto.
Qed.

(** ** The failure paths of [action_process_image] *)

(** X9. Without a text model or without an inference context,
    [processImage] answers with the model-not-loaded message whatever the
    state of the multimodal context and whatever the request; no engine call
    is made and the state is unchanged. *)
Theorem process_image_without_model (E : Engine)
    (req : glue_msg_process_image_req) (s : state E) :
  is_null (app_model (app s)) = true \/ is_null (app_ctx (app s)) = true ->
  action_process_image E req s =
    (Normal {| success := false;
               error := "Text model not loaded. Call loadModel() first.";
               result := EmptyString |}, s, []).
Proof.
  intros Hnull. unfold action_process_image, bind, get_app, ret. cbv beta iota.
  assert (Htest : is_null (app_model (app s)) || is_null (app_ctx (app s)) = true).
  { apply orb_true_iff. exact Hnull. }
  rewrite Htest. reflexivity.
Qed.

Lemma process_image_without_model_witness :
  let E := Scripted.engine Scenario.two_tokens in
  let s := Build_state E {| app_model := 100%N; app_ctx := nullptr;
                            app_ctx_sampling := nullptr; app_batch := [] |}
             {| ctx := 300%N; initialized := true |} Scripted.start in
  action_process_image E (Scenario.describe false) s =
    (Normal {| success := false;
               error := "Text model not loaded. Call loadModel() first.";
               result := EmptyString |}, s, []).
Proof.
  intros E s.
  apply (process_image_without_model E (Scenario.describe false) s).
  right. reflexivity.
Defined.

Section Failures.

Variable E : Engine.

(** In the loop, a call that throws is the last one, and the exception
    leaves the loop. *)
Lemma generate_thrown_last : forall n txt np (s : state E) o s' t,
  generate E n txt np s = (o, s', t) ->
  forall pre ev post e,
  t = pre ++ ev :: post -> thrown ev = Some e ->
  o = Thrown e /\ post = [].
Proof.
  induction n as [|n IH]; intros txt np s o s' t H pre ev post e Heq Hev;
    cbn [generate] in H; invert_run; simpl_state.
  all: try (symmetry in Heq; apply app_cons_not_nil in Heq; destruct Heq).
  all: peel Heq.
  all: try (exfalso; eapply app_cons_not_nil; eassumption).
  all: try match goal with
           | Hg : generate _ _ _ _ _ = (_, _, ?lt), Hl : ?lt = _ ++ _ :: _ |- _ =>
               exact (IH _ _ _ _ _ _ Hg _ _ _ _ Hl Hev)
           end.
  all: subst; cbn in Hev; try discriminate Hev.
  all: injection Hev as ->; auto.
Qed.

(** When the loop ends by [break] or by exhaustion, no call of it threw and
    no decode step reported a failure. *)
Lemma generate_done_clean : forall n txt np (s : state E) s' t txt',
  generate E n txt np s = (Normal (loop_done txt'), s', t) ->
  Forall (fun ev => event_failed ev = false) t.
Proof.
  induction n as [|n IH]; intros txt np s s' t txt' H;
    cbn [generate] in H; invert_run; simpl_state; try discriminate.
  - constructor.
  - repeat (constructor; [reflexivity|]). constructor.
  - match goal with
    | Hz : negb (?x =? 0) = false |- _ =>
        apply negb_false_iff, Z.eqb_eq in Hz; subst
    end.
    repeat (constructor; [reflexivity|]). eapply IH. eassumption.
Qed.

(** X10. When the tokenizer reports a non-zero status the request stops
    there: the response is the tokenization failure, the call of
    [mtmd_tokenize] is the only engine call of the run (the attention cache
    is not cleared, nothing is evaluated or sampled), and [app] is left as it
    was. *)
Lemma tokenization_failure_run req (s : state E) c txt bitmaps status chunks :
  In (Ev_mtmd_tokenize c txt bitmaps (Normal (status, chunks)))
     (trace_of (action_process_image E req s)) ->
  status <> 0 ->
  outcome_of (action_process_image E req s) =
    Normal (res_error "Failed to tokenize input with image") /\
  trace_of (action_process_image E req s) =
    [Ev_mtmd_tokenize c txt bitmaps (Normal (status, chunks))] /\
  app (state_of (action_process_image E req s)) = app s.
Proof.
  destruct (action_process_image E req s) as [[o s'] t] eqn:H.
  unfold trace_of, outcome_of, state_of. cbn [fst snd]. intros Hin Hst.
  unfold action_process_image, process_image_try in H.
  invert_run; simpl_state; rewrite ?app_nil_r in *; in_trace Hin;
    try discriminate Hin; try loop_trace_absurd Hin.
  all: injection Hin as <- <- <- <- <-.
  all: try match goal with
           | Hz : negb (?x =? 0) = false |- _ =>
               apply negb_false_iff, Z.eqb_eq in Hz; congruence
           end.
  auto.
Qed.

(** X11. When the evaluation of the chunks reports a non-zero status the
    request stops there: nothing is called after [mtmd_helper_eval], and
    [app] is left as it was (the sampler is neither freed nor replaced). *)
Lemma evaluation_failure_run req (s : state E) pre c lctx chunks n_past seq_id
    n_batch status post :
  trace_of (action_process_image E req s) =
    pre ++ Ev_mtmd_helper_eval c lctx chunks n_past seq_id n_batch (Normal status)
        :: post ->
  status <> 0 ->
  outcome_of (action_process_image E req s) =
    Normal (res_error "Failed to evaluate chunks") /\
  post = [] /\
  app (state_of (action_process_image E req s)) = app s.
Proof.
  destruct (action_process_image E req s) as [[o s'] t] eqn:H.
  unfold trace_of, outcome_of, state_of. cbn [fst snd]. intros Heq Hst.
  unfold action_process_image, process_image_try in H.
  invert_run; simpl_state; rewrite ?app_nil_r in Heq.
  all: try (symmetry in Heq; apply app_cons_not_nil in Heq; destruct Heq).
  all: peel Heq.
  all: try discriminate.
  all: try match goal with
           | Hl : ?lt = _ ++ ?ev :: _, Hg : generate _ _ _ _ _ = (_, _, ?lt) |- _ =>
               exfalso; apply generate_loop_events in Hg;
               rewrite Forall_forall in Hg;
               assert (Hin : In ev lt) by (rewrite Hl; apply in_elt);
               apply Hg in Hin; discriminate Hin
           end.
  all: try (exfalso; eapply app_cons_not_nil; eassumption).
  all: subst.
  all: try match goal with
           | Hz : negb (?x =? 0) = false |- _ =>
               apply negb_false_iff, Z.eqb_eq in Hz; congruence
           end.
  all: auto.
Qed.

(** X12. An exception thrown by any engine call of [processImage] ends the
    request at that call and is turned into a response: the message of a
    std::exception after "Exception: ", or the unknown-error message. *)
Lemma exception_run req (s : state E) pre ev post e :
  trace_of (action_process_image E req s) = pre ++ ev :: post ->
  thrown ev = Some e ->
  outcome_of (action_process_image E req s) = Normal (caught e) /\ post = [].
Proof.
  destruct (action_process_image E req s) as [[o s'] t] eqn:H.
  unfold trace_of, outcome_of. cbn [fst snd]. intros Heq Hev.
  unfold action_process_image, process_image_try in H.
  invert_run; simpl_state; rewrite ?app_nil_r in Heq.
  all: try (symmetry in Heq; apply app_cons_not_nil in Heq; destruct Heq).
  all: peel Heq.
  all: try (exfalso; eapply app_cons_not_nil; eassumption).
  all: try match goal with
           | Hg : generate _ _ _ _ _ = (_, _, ?lt), Hl : ?lt = _ ++ _ :: _ |- _ =>
               destruct (generate_thrown_last _ _ _ _ _ _ _ Hg _ _ _ _ Hl Hev)
                 as [Ho ->]; try discriminate Ho;
               injection Ho as <-; split; reflexivity
           end.
  all: subst; cbn in Hev; try discriminate Hev.
  all: injection Hev as <-; split; reflexivity.
Qed.

End Failures.

Lemma tokenization_failure_run_witness :
  let sc := {| Scripted.init_results := []; 
               Scripted.tokenize_result := Normal (1, []);
               Scripted.eval_result := Normal 0;
               Scripted.sampled := []; Scripted.sampled_after := 2;
               Scripted.eos_token := 2; Scripted.decode_results := [] |} in
  let run := action_process_image (Scripted.engine sc) (Scenario.describe false)
               (Scripted.ready sc) in
  outcome_of run = Normal (res_error "Failed to tokenize input with image") /\
  List.length (trace_of run) = 1%nat.
Proof.
  intros sc run.
  destruct (tokenization_failure_run (Scripted.engine sc) (Scenario.describe false)
              (Scripted.ready sc) 300%N
              {| text := "describe <__image__>"; add_special := true;
                 parse_special := true |}
              [{| nx := 1; ny := 1; data := Scenario.pixel; id := "img_3" |}]
              1 [])
    as (Ho & Ht & _).
  - vm_compute. left. reflexivity.
  - discriminate.
  - split; [exact Ho|]. fold run in Ht. rewrite Ht. reflexivity.
Defined.

Lemma evaluation_failure_run_witness :
  let sc := {| Scripted.init_results := []; 
               Scripted.tokenize_result := Normal (0, Scenario.chunks);
               Scripted.eval_result := Normal 1;
               Scripted.sampled := []; Scripted.sampled_after := 2;
               Scripted.eos_token := 2; Scripted.decode_results := [] |} in
  let run := action_process_image (Scripted.engine sc) (Scenario.describe false)
               (Scripted.ready sc) in
  outcome_of run = Normal (res_error "Failed to evaluate chunks") /\
  app_ctx_sampling (app (state_of run)) = nullptr.
Proof.
  intros sc run.
  destruct (evaluation_failure_run (Scripted.engine sc) (Scenario.describe false)
              (Scripted.ready sc) (firstn 3 (trace_of run)) 300%N 200%N
              Scenario.chunks 0 0 512 1 (skipn 4 (trace_of run)))
    as (Ho & _ & Happ).
  - vm_compute. reflexivity.
  - discriminate.
  - split; [exact Ho|]. fold run in Happ. rewrite Happ. reflexivity.
Defined.

Lemma exception_run_witness :
  let sc := {| Scripted.init_results := []; 
               Scripted.tokenize_result := Thrown (std_exception "bad image");
               Scripted.eval_result := Normal 0;
               Scripted.sampled := []; Scripted.sampled_after := 2;
               Scripted.eos_token := 2; Scripted.decode_results := [] |} in
  let run := action_process_image (Scripted.engine sc) (Scenario.describe false)
               (Scripted.ready sc) in
  outcome_of run = Normal (res_error "Exception: bad image").
Proof.
  intros sc run.
  refine (proj1 (exception_run (Scripted.engine sc) (Scenario.describe false)
            (Scripted.ready sc) []
            (Ev_mtmd_tokenize 300%N
               {| text := "describe <__image__>"; add_special := true;
                  parse_special := true |}
               [{| nx := 1; ny := 1; data := Scenario.pixel; id := "img_3" |}]
               (Thrown (std_exception "bad image")))
            [] (std_exception "bad image") _ _)).
  - vm_compute. reflexivity.
  - reflexivity.
Defined.

Section Responses.

Variable E : Engine.

(** X13. A successful response is only given when everything went through:
    in a run answered with success=true no engine call threw and none
    reported a failure, and the tokenizer and the evaluation both returned 0,
    the evaluation being made on the chunks the tokenizer produced. *)
Lemma success_run req (s : state E) res :
  outcome_of (action_process_image E req s) = Normal res ->
  success res = true ->
  Forall (fun ev => event_failed ev = false)
         (trace_of (action_process_image E req s)) /\
  exists txt bitmaps chunks n_batch n,
    In (Ev_mtmd_tokenize (ctx (g_mtmd_ctx s)) txt bitmaps (Normal (0, chunks)))
       (trace_of (action_process_image E req s)) /\
    In (Ev_mtmd_helper_eval (ctx (g_mtmd_ctx s)) (app_ctx (app s)) chunks 0 0
          n_batch (Normal 0))
       (trace_of (action_process_image E req s)) /\
    In (Ev_mtmd_helper_get_n_tokens chunks (Normal n))
       (trace_of (action_process_image E req s)).
Proof.
  destruct (action_process_image E req s) as [[o s'] t] eqn:H.
  unfold trace_of, outcome_of. cbn [fst snd].
  unfold action_process_image, process_image_try in H.
  invert_run; simpl_state; rewrite ?app_nil_r; intros Ho Hs;
    injection Ho as <-; try discriminate Hs.
  all: try match goal with
           | Hg : generate _ _ _ _ _ = (Normal (loop_return _), _, _) |- _ =>
               apply generate_return in Hg; subst; discriminate Hs
           end.
  all: repeat match goal with
              | Hz : negb (?x =? 0) = false |- _ =>
                  apply negb_false_iff, Z.eqb_eq in Hz; subst
              end.
  all: match goal with
       | Hg : generate _ _ _ _ _ = _ |- _ =>
           apply generate_done_clean in Hg
       end.
  all: split;
    [ repeat (apply Forall_cons; [reflexivity|]); assumption
    | eexists _, _, _, _, _; cbn [In]; repeat split; eauto 10 ].
Qed.

(** X14. Every response of [processImage] is either a success with an empty
    error, or a failure with a non-empty error and an empty result. *)
Lemma response_shape req (s : state E) :
  exists res,
    outcome_of (action_process_image E req s) = Normal res /\
    (success res = true -> error res = EmptyString) /\
    (success res = false -> error res <> EmptyString /\ result res = EmptyString).
Proof.
  destruct (action_process_image E req s) as [[o s'] t] eqn:H.
  unfold outcome_of. cbn [fst].
  unfold action_process_image, process_image_try in H.
  invert_run; simpl_state.
  all: try match goal with
           | Hg : generate _ _ _ _ _ = (Normal (loop_return _), _, _) |- _ =>
               apply generate_return in Hg; subst
           end.
  all: eexists; split; [reflexivity|]; cbn; split; intros Hs;
    try discriminate Hs; try reflexivity; split; (discriminate || reflexivity).
Qed.

End Responses.

(** ** The sampler and the positions of the generation loop *)

Lemma positions_from_no_wrap : forall (k : nat) (start : Z),
  0 <= start -> start + Z.of_nat k <= INT_MAX + 1 ->
  positions_from start k = map (fun i => start + Z.of_nat i) (seq 0 k).
Proof.
  induction k as [|k IH]; intros start H0 Hmax; [reflexivity|].
  cbn [positions_from seq map]. f_equal; [cbn; lia|].
  destruct k as [|k]; [reflexivity|].
  unfold int_add. rewrite wrap32_small
    by (unfold int_range, INT_MIN, INT_MAX in *; lia).
  rewrite IH by (unfold INT_MAX in *; lia).
  rewrite <- seq_shift, map_map. apply map_ext. intros i. lia.
Qed.

Lemma decode_slots_app (t1 t2 : trace) :
  decode_slots (t1 ++ t2) = decode_slots t1 ++ decode_slots t2.
Proof. unfold decode_slots. apply flat_map_app. Qed.

Lemma setup_no_decode_slots (t : trace) :
  Forall (fun ev => loop_event ev = false) t -> decode_slots t = [].
Proof.
  induction 1 as [|ev t Hev _ IH]; [reflexivity|].
  unfold decode_slots in *. cbn [flat_map]. rewrite IH.
  destruct ev; cbn in *; try discriminate; reflexivity.
Qed.

Lemma decodes_follow_none (t : trace) :
  (forall lctx b r, ~ In (Ev_llama_decode lctx b r) t) ->
  decodes_follow_sampling t.
Proof.
  intros Hno pre lctx b r post Heq. exfalso.
  apply (Hno lctx b r). rewrite Heq. apply in_elt.
Qed.

Lemma decodes_follow_app (t1 t2 : trace) :
  (forall lctx b r, ~ In (Ev_llama_decode lctx b r) t1) ->
  decodes_follow_sampling t2 -> decodes_follow_sampling (t1 ++ t2).
Proof.
  intros Hno Hf pre lctx b r post Heq.
  apply suffix_split in Heq; [|apply Hno].
  destruct Heq as (pre' & -> & Ht2).
  destruct (Hf _ _ _ _ _ Ht2)
    as (p0 & smpl & l' & idx & m & tok & eos & str & -> & Hb & Hl).
  exists (t1 ++ p0), smpl, l', idx, m, tok, eos, str.
  split; [now rewrite app_assoc | auto].
Qed.

Section Sampling.

Variable E : Engine.

(** The loop samples on the sampler and the context held by [app], and
    leaves the sampler pointer as it is. *)
Lemma generate_sampler : forall n txt np (s : state E) o s' t,
  generate E n txt np s = (o, s', t) ->
  app_ctx_sampling (app s') = app_ctx_sampling (app s) /\
  forall p lctx idx r,
    In (Ev_wcommon_sampler_sample p lctx idx r) t ->
    p = app_ctx_sampling (app s) /\ lctx = app_ctx (app s).
Proof.
  induction n as [|n IH]; intros txt np s o s' t H;
    cbn [generate] in H; invert_run; simpl_state.
  all: try match goal with
           | Hg : generate _ _ _ _ _ = _ |- _ =>
               apply IH in Hg; simpl_state; destruct Hg as [Hs Hin']
           end.
  all: split; [first [reflexivity | assumption]|].
  all: intros p lctx idx r Hin; in_trace Hin; try discriminate Hin.
  all: try (injection Hin as <- <- _ _; split; reflexivity).
  all: eauto.
Qed.

Lemma generate_decodes_follow : forall n txt np (s : state E) o s' t,
  generate E n txt np s = (o, s', t) -> decodes_follow_sampling t.
Proof.
  induction n as [|n IH]; intros txt np s o s' t H pre lctx b r post Heq;
    cbn [generate] in H; invert_run; simpl_state.
  all: try (symmetry in Heq; apply app_cons_not_nil in Heq; destruct Heq).
  all: peel Heq.
  all: try discriminate.
  all: try (exfalso; eapply app_cons_not_nil; eassumption).
  all: try match goal with
           | Hg : generate _ _ _ _ _ = (_, _, ?lt), Hl : ?lt = _ ++ _ :: _ |- _ =>
               destruct (IH _ _ _ _ _ _ Hg _ _ _ _ _ Hl)
                 as (p0 & smpl & l' & idx & m & tok & eos & str & -> & Hb & Hlc);
               subst;
               eexists (_ :: _ :: _ :: _ :: _ :: p0), smpl, _, idx, m, tok, eos, str;
               repeat split; reflexivity
           end.
  all: subst.
  all: repeat match goal with
              | x : unit |- _ => destruct x
              end.
  all: eexists [], _, _, _, _, _, _, _; repeat split; reflexivity.
Qed.

(** The positions submitted to [llama_decode] are consecutive from the
    position the loop starts at, and there are at most as many as
    iterations. *)
Lemma generate_positions : forall n txt np (s : state E) o s' t,
  generate E n txt np s = (o, s', t) ->
  map b_pos (decode_slots t) = positions_from np (List.length (decode_slots t)) /\
  (List.length (decode_slots t) <= n)%nat.
Proof.
  induction n as [|n IH]; intros txt np s o s' t H;
    cbn [generate] in H; invert_run; simpl_state.
  all: try match goal with
           | Hg : generate _ _ _ _ _ = _ |- _ =>
               apply IH in Hg; destruct Hg as [Hp Hl]
           end.
  all: unfold decode_slots in *; cbn [flat_map List.app List.length map b_pos
                                       positions_from].
  all: try (split; [reflexivity | lia]).
  split; [f_equal; exact Hp | lia].
Qed.

(** A run either ends during the set-up, or it creates a sampler and runs
    the generation loop from the position after the chunks, on a state in
    which [app] holds the new sampler. *)
Lemma process_image_generation req (s : state E) o s' t :
  action_process_image E req s = (o, s', t) ->
  (Forall (fun ev => loop_event ev = false) t /\
   forall model sp p, ~ In (Ev_wcommon_sampler_init model sp (Normal p)) t)
  \/
  (exists prefix lt chunks n smpl s1 ol,
     t = prefix ++ lt /\
     Forall (fun ev => loop_event ev = false) prefix /\
     In (Ev_mtmd_helper_get_n_tokens chunks (Normal n)) prefix /\
     In (Ev_wcommon_sampler_init (app_model (app s)) sparams_literal (Normal smpl))
        prefix /\
     (is_null (app_ctx_sampling (app s)) = false ->
      In (Ev_wcommon_sampler_free (app_ctx_sampling (app s)) (Normal tt)) prefix) /\
     app_ctx_sampling (app s1) = smpl /\
     app_ctx (app s1) = app_ctx (app s) /\
     generate E max_tokens EmptyString (wrap32 (Z.of_N n)) s1 = (ol, s', lt) /\
     o = Normal (finish ol)).
Proof.
  intros H. unfold action_process_image, process_image_try in H.
  invert_run; simpl_state; rewrite ?app_nil_r.
  all: repeat match goal with
              | x : unit |- _ => destruct x
              | Hb : negb (is_null _) = true |- _ => apply negb_true_iff in Hb
              | Hb : negb (is_null _) = false |- _ => apply negb_false_iff in Hb
              end.
  all: lazymatch goal with
       | Hg : generate _ _ _ _ _ = (_, _, ?lt) |- _ \/ (exists p l c n sm s1 ol, ?t = _ /\ _) =>
           right;
           let p := prefix_of t lt in
           exists p, lt; eexists _, _, _, _, _;
           split; [reflexivity|];
           split; [repeat (apply Forall_cons; [reflexivity|]); apply Forall_nil|];
           split; [cbn [In]; eauto 12|];
           split; [cbn [In]; eauto 12|];
           split; [intros Hold; cbn [In]; first [congruence | eauto 12]|];
           split; [|split; [|split; [exact Hg | reflexivity]]]; reflexivity
       | |- _ =>
           left; split;
           [ repeat (apply Forall_cons; [reflexivity|]); apply Forall_nil
           | intros model sp p Hin; in_trace Hin; discriminate Hin ]
       end.
Qed.

End Sampling.

(** X15. Sampling is always done on a sampler created by the same request:
    the sampler of every [wcommon_sampler_sample] call of a run is the one
    [wcommon_sampler_init] returned earlier in that run (for the loaded model
    and the fixed parameters), the call is made on the inference context of
    [app], the sampler is the one left in [app.ctx_sampling], and the sampler
    [app] held before, if any, was freed first. *)
Theorem sampling_uses_fresh_sampler (E : Engine) (req : glue_msg_process_image_req)
    (s : state E) (p lctx : ptr) (idx : Z) (r : outcome Z) :
  let run := action_process_image E req s in
  In (Ev_wcommon_sampler_sample p lctx idx r) (trace_of run) ->
  In (Ev_wcommon_sampler_init (app_model (app s)) sparams_literal (Normal p))
     (trace_of run) /\
  lctx = app_ctx (app s) /\
  app_ctx_sampling (app (state_of run)) = p /\
  (is_null (app_ctx_sampling (app s)) = false ->
   In (Ev_wcommon_sampler_free (app_ctx_sampling (app s)) (Normal tt))
      (trace_of run)).
Proof.
  intros run Hin. subst run.
  destruct (action_process_image E req s) as [[o s'] t] eqn:H.
  unfold trace_of, state_of in *. cbn [fst snd] in *.
  apply process_image_generation in H.
  destruct H as [[Hall _] | (prefix & lt & chunks & n & smpl & s1 & ol & -> & Hpre
                              & _ & Hinit & Hfree & Hs1 & Hc1 & Hgen & _)].
  - exfalso. revert Hin. now apply not_loop_event_in.
  - apply in_app_or in Hin. destruct Hin as [Hin | Hin].
    + exfalso. revert Hin. now apply not_loop_event_in.
    + destruct (generate_sampler E _ _ _ _ _ _ _ Hgen) as [Hs' Hsmp].
      destruct (Hsmp _ _ _ _ Hin) as [-> ->].
      rewrite Hs1 in *. repeat split.
      * apply in_or_app. left. exact Hinit.
      * exact Hc1.
      * exact Hs'.
      * intros Hold. apply in_or_app. left. now apply Hfree.
Qed.

Lemma sampling_uses_fresh_sampler_witness :
  let E := Scripted.engine Scenario.two_tokens in
  let run := action_process_image E (Scenario.describe false)
               (Scripted.ready Scenario.two_tokens) in
  app_ctx_sampling (app (state_of run)) = 700%N.
Proof.
  intros E run.
  refine (proj1 (proj2 (proj2
    (sampling_uses_fresh_sampler E (Scenario.describe false)
       (Scripted.ready Scenario.two_tokens) 700%N 200%N 7 (Normal 5) _)))).
  vm_compute. do 6 right. left. reflexivity.
Defined.

(** X16. Every call of [llama_decode] submits exactly one token: the token
    that was just sampled, found different from the end-of-sequence token,
    turned into text and accepted by the sampler; the batch holds that token
    alone, at the position that was given to the sampler, on sequence 0, with
    logits requested. *)
Theorem decode_submits_sampled_token (E : Engine)
    (req : glue_msg_process_image_req) (s : state E) :
  decodes_follow_sampling (trace_of (action_process_image E req s)).
Proof.
  destruct (action_process_image E req s) as [[o s'] t] eqn:H.
  unfold trace_of. cbn [snd].
  apply process_image_shape in H.
  destruct H as (prefix & lt & -> & Hpre & Hcases).
  apply decodes_follow_app.
  - intros lctx b r. now apply not_loop_event_in.
  - destruct Hcases as [(-> & _) | (np & s1 & ol & Hgen & _)].
    + apply decodes_follow_none. intros lctx b r [].
    + eapply generate_decodes_follow. eassumption.
Qed.

(** X17. The generated tokens are decoded at consecutive positions that
    start right after the chunks: with [n] the number of positions
    [mtmd_helper_get_n_tokens] reported, the positions submitted to
    [llama_decode] are n, n+1, n+2, ... (as long as n + 1024 fits in an
    [int]; in general with the wrap-around of [int] arithmetic). *)
Theorem decode_positions_consecutive (E : Engine)
    (req : glue_msg_process_image_req) (s : state E) :
  let t := trace_of (action_process_image E req s) in
  decode_slots t = [] \/
  exists chunks n,
    In (Ev_mtmd_helper_get_n_tokens chunks (Normal n)) t /\
    map b_pos (decode_slots t) =
      positions_from (wrap32 (Z.of_N n)) (List.length (decode_slots t)) /\
    (Z.of_N n + 1024 <= INT_MAX ->
     map b_pos (decode_slots t) =
       map (fun k => Z.of_N n + Z.of_nat k) (seq 0 (List.length (decode_slots t)))).
Proof.
  intros t. subst t.
  destruct (action_process_image E req s) as [[o s'] t] eqn:H.
  unfold trace_of. cbn [snd].
  apply process_image_generation in H.
  destruct H as [[Hall _] | (prefix & lt & chunks & n & smpl & s1 & ol & -> & Hpre
                              & Hn & _ & _ & _ & _ & Hgen & _)].
  - left. now apply setup_no_decode_slots.
  - right. exists chunks, n.
    rewrite decode_slots_app, (setup_no_decode_slots _ Hpre). cbn [List.app].
    destruct (generate_positions E _ _ _ _ _ _ _ Hgen) as [Hpos Hlen].
    split; [apply in_or_app; left; exact Hn|]. split; [exact Hpos|].
    intros Hfit. rewrite Hpos.
    rewrite wrap32_small
      by (unfold int_range, INT_MIN, INT_MAX in *; lia).
    apply positions_from_no_wrap; [lia|].
    unfold max_tokens in Hlen. lia.
Qed.

Section SamplerFailure.

Variable E : Engine.

(** X18. When [wcommon_sampler_init] throws, the request is answered with
    the exception's message and [app] is not written: [app.ctx_sampling]
    still holds the pointer it held before, although that sampler, when there
    was one, has just been passed to [wcommon_sampler_free]. *)
Lemma sampler_init_exception_run req (s : state E) model sp e :
  In (Ev_wcommon_sampler_init model sp (Thrown e))
     (trace_of (action_process_image E req s)) ->
  outcome_of (action_process_image E req s) = Normal (caught e) /\
  app (state_of (action_process_image E req s)) = app s /\
  (is_null (app_ctx_sampling (app s)) = false ->
   In (Ev_wcommon_sampler_free (app_ctx_sampling (app s)) (Normal tt))
      (trace_of (action_process_image E req s))).
Proof.
  destruct (action_process_image E req s) as [[o s'] t] eqn:H.
  unfold trace_of, outcome_of, state_of. cbn [fst snd]. intros Hin.
  unfold action_process_image, process_image_try in H.
  invert_run; simpl_state; rewrite ?app_nil_r in *; in_trace Hin;
    try discriminate Hin; try loop_trace_absurd Hin.
  all: injection Hin as _ _ <-.
  all: repeat match goal with
              | x : unit |- _ => destruct x
              | Hb : negb (is_null _) = true |- _ => apply negb_true_iff in Hb
              | Hb : negb (is_null _) = false |- _ => apply negb_false_iff in Hb
              end.
  all: repeat split; try reflexivity.
  all: intros Hold; first [congruence | cbn [In]; auto 12].
Qed.

(** The not-initialized response comes from the readiness test only. *)
Lemma not_initialized_only_from_check req (s : state E) :
  outcome_of (action_process_image E req s) =
    Normal (failure ContextNotInitialized) ->
  is_ready (g_mtmd_ctx s) = false.
Proof.
  destruct (action_process_image E req s) as [[o s'] t] eqn:H.
  unfold outcome_of. cbn [fst].
  unfold action_process_image, process_image_try in H.
  invert_run; simpl_state; intros Ho; try (cbn in Ho; discriminate Ho).
  all: try match goal with
           | Hg : generate _ _ _ _ _ = _ |- _ =>
               apply generate_return in Hg; subst; discriminate Ho
           end.
  unfold is_ready.
  match goal with
  | Hb : negb ?i || ?n = true |- _ => destruct i, n; cbn in *; congruence
  end.
Qed.

End SamplerFailure.

Lemma sampler_init_exception_run_witness :
  let E := sampler_init_throws Scenario.two_tokens (std_exception "no memory") in
  let s := Build_state E {| app_model := 100%N; app_ctx := 200%N;
                            app_ctx_sampling := 650%N; app_batch := [] |}
             {| ctx := 300%N; initialized := true |} Scripted.start in
  let run := action_process_image E (Scenario.describe false) s in
  outcome_of run = Normal (res_error "Exception: no memory") /\
  app_ctx_sampling (app (state_of run)) = 650%N /\
  In (Ev_wcommon_sampler_free 650%N (Normal tt)) (trace_of run).
Proof.
  intros E s run.
  destruct (sampler_init_exception_run E (Scenario.describe false) s 100%N
              sparams_literal (std_exception "no memory"))
    as (Ho & Happ & Hfree).
  - vm_compute. do 6 right. left. reflexivity.
  - split; [exact Ho|]. split.
    + fold run in Happ. rewrite Happ. reflexivity.
    + apply Hfree. reflexivity.
Defined.

(** ** The image of the request *)

(** X19. The declared byte length of a request plays no part: two requests
    that differ in [data_size] only are served in exactly the same way (same
    response, same state, same engine calls). *)
Theorem data_size_is_ignored (E : Engine) (req : glue_msg_process_image_req)
    (s : state E) (n : Z) :
  action_process_image E
    {| image_data := image_data req; data_size := n; width := width req;
       height := height req; prompt := prompt req; use_cache := use_cache req |} s
  = action_process_image E req s.
Proof. destruct req. reflexivity. Qed.



(** X21. When the [int] product [width * height * 3] wraps around to a
    negative value, the [resize] of the bitmap throws before the size check:
    the request is answered with the message of the length error after
    "Exception: ", without any engine call and without a change of state. *)
Theorem negative_byte_count_is_an_exception (E : Engine)
    (req : glue_msg_process_image_req) (s : state E) :
  is_null (app_model (app s)) = false ->
  is_null (app_ctx (app s)) = false ->
  is_ready (g_mtmd_ctx s) = true ->
  image_data req <> [] -> 0 < width req -> 0 < height req ->
  int_mul (int_mul (width req) (height req)) 3 < 0 ->
  action_process_image E req s =
    (Normal (res_error ("Exception: " ++ length_error_what E)%string), s, []).
Proof. apply negative_byte_count_throws. Qed.

Lemma negative_byte_count_is_an_exception_witness :
  let E := Scripted.engine Scenario.two_tokens in
  let req := {| image_data := Scenario.pixel; data_size := 3; width := 32768;
                height := 32768; prompt := "describe"; use_cache := false |} in
  action_process_image E req (Scripted.ready Scenario.two_tokens) =
    (Normal (res_error "Exception: vector"), Scripted.ready Scenario.two_tokens, []).
Proof.
  intros E req.
  apply (negative_byte_count_is_an_exception E req
           (Scripted.ready Scenario.two_tokens)); try reflexivity.
  discriminate.
Defined.

(** ** Initialization followed by use *)

(** X22. After an [initMultimodal] in which the engine built a context, the
    singleton holds that context and is ready, and a [processImage] that
    follows works on it: it is not answered with the not-initialized message,
    and every multimodal call it makes is on the new context, which it
    neither destroys nor replaces. *)
Theorem process_after_successful_init (E : Engine)
    (ireq : glue_msg_init_mtmd_req) (req : glue_msg_process_image_req)
    (s : state E) (path : string) (model : ptr) (params : mtmd_context_params)
    (p : ptr) :
  let run1 := action_init_mtmd E ireq s in
  let run2 := action_process_image E req (state_of run1) in
  In (Ev_mtmd_init_from_file path model params (Normal p)) (trace_of run1) ->
  is_null p = false ->
  outcome_of run1 = Normal {| init_success := true; init_error := EmptyString |} /\
  g_mtmd_ctx (state_of run1) = {| ctx := p; initialized := true |} /\
  Forall (fun ev => uses_only p ev = true) (trace_of run2) /\
  outcome_of run2 <> Normal (failure ContextNotInitialized).
Proof.
  intros run1 run2 Hin Hp. subst run2 run1.
  destruct (action_init_mtmd E ireq s) as [[o1 s1] t1] eqn:H1.
  unfold trace_of, outcome_of, state_of in *. cbn [fst snd] in *.
  apply init_mtmd_cases in H1.
  destruct H1 as [(_ & _ & _ & ->) | (_ & _ & params' & r' & -> & Hr)];
    [destruct Hin|].
  apply in_app_or in Hin. destruct Hin as [Hin | [Hin | []]].
  { destruct (is_null (ctx (g_mtmd_ctx s))); [destruct Hin|].
    destruct Hin as [Hin | []]. discriminate Hin. }
  injection Hin as _ _ _ ->. rewrite Hp in Hr. destruct Hr as [Hg ->].
  split; [reflexivity|]. split; [exact Hg|].
  destruct (action_process_image E req s1) as [[o2 s2] t2] eqn:H2.
  cbn [fst snd]. split.
  - apply process_image_uses_only in H2.
    destruct H2 as [-> | [_ Hall]]; [constructor|].
    rewrite Hg in Hall. exact Hall.
  - intros Ho.
    assert (Hnr : is_ready (g_mtmd_ctx s1) = false).
    { apply (not_initialized_only_from_check E req s1).
      rewrite H2. exact Ho. }
    rewrite Hg in Hnr. unfold is_ready in Hnr. cbn in Hnr. rewrite Hp in Hnr.
    discriminate Hnr.
Qed.

Lemma process_after_successful_init_witness :
  let E := Scripted.engine Scenario.two_tokens in
  let run1 := action_init_mtmd E (Scenario.init_req EmptyString)
                (Scripted.fresh Scenario.two_tokens) in
  g_mtmd_ctx (state_of run1) = {| ctx := 300%N; initialized := true |}.
Proof.
  intros E run1.
  refine (proj1 (proj2
    (process_after_successful_init E (Scenario.init_req EmptyString)
       (Scenario.describe false) (Scripted.fresh Scenario.two_tokens)
       "mmproj.gguf" 100%N
       {| use_gpu := false; n_threads := 1; verbosity := GGML_LOG_LEVEL_INFO;
          print_timings := true; image_marker := "<__image__>" |}
       300%N _ eq_refl))).
  vm_compute. left. reflexivity.
Defined.

Lemma success_run_witness :
  Forall (fun ev => event_failed ev = false)
    (trace_of (action_process_image (Scripted.engine Scenario.two_tokens)
                 (Scenario.describe false)
                 (Scripted.ready Scenario.two_tokens))).
Proof.
  refine (proj1 (success_run (Scripted.engine Scenario.two_tokens)
                   (Scenario.describe false)
                   (Scripted.ready Scenario.two_tokens)
                   {| success := true; error := EmptyString; result := "<5><6>" |}
                   _ eq_refl)).
  vm_compute. reflexivity.
Defined.

Lemma decode_submits_sampled_token_witness :
  exists tok idx lctx r,
    In (Ev_llama_decode lctx
          [{| b_token := tok; b_pos := idx; b_seq_ids := [0]; b_logits := true |}] r)
       (trace_of (action_process_image (Scripted.engine Scenario.two_tokens)
                    (Scenario.describe false)
                    (Scripted.ready Scenario.two_tokens))).
Proof.
  pose proof (decode_submits_sampled_token (Scripted.engine Scenario.two_tokens)
                (Scenario.describe false)
                (Scripted.ready Scenario.two_tokens)) as H.
  unfold decodes_follow_sampling in H.
  set (t := trace_of _) in *.
  assert (Hs : exists k lctx b r,
             t = firstn k t ++ Ev_llama_decode lctx b r :: skipn (S k) t).
  { first [ exists 9%nat; vm_compute; eexists _, _, _; reflexivity
          | exists 10%nat; vm_compute; eexists _, _, _; reflexivity
          | exists 11%nat; vm_compute; eexists _, _, _; reflexivity
          | exists 12%nat; vm_compute; eexists _, _, _; reflexivity ]. }
  destruct Hs as (k & lctx & b & r & Hs).
  destruct (H _ _ _ _ _ Hs)
    as (pre' & smpl & lctx' & idx & model & tok & eos & str & _ & Hb & _).
  exists tok, idx, lctx, r. rewrite Hs, <- Hb. apply in_elt.
Defined.
